(** * API-key governance: the key manager and the request gate

    A shallow embedding of
      security/api_key_manager.py     (class APIKeyManager)
      security/api_key_middleware.py  (class APIKeyMiddleware)
    followed by the properties of the specification that concern them.

    Conventions of the embedding.
    - [time.time()] returns a float number of seconds; timestamps are
      modelled as integers of an arbitrary unit, and only their order and
      sums are used.  Where the code adds an [int] to such a float, the
      conversion of the [int] can fail with [OverflowError], which is
      modelled; the rounding of the sum is not, and the statements that
      give the value of a sum are made where the float sum is exact.
    - The process environment (the digest function, the system clock, the
      source of random identifiers, the environment variables) is gathered
      in one record [Env]; the clock is an oracle read one tick at a time,
      so two successive [time.time()] calls may differ.
    - A Python [dict] that is only reached through the manager (a key
      record, a tracker) is a value in a [gmap]; the [metadata] dict, which
      the caller hands over and the manager mutates in place, lives in a
      store of objects and the record holds its address.
    - Exceptions are outcomes: a method returns [Return v] or [Raise e]
      together with the world it leaves behind.
    - Calls to [logger] are not modelled. *)

From Stdlib Require Import ZArith String List Lia.
From stdpp Require Import base option gmap strings list fin_maps.

Open Scope string_scope.
Open Scope Z_scope.

(** ** Python values that occur in the two modules *)

Inductive pyval : Type :=
| PyNone
| PyBool (b : bool)
| PyInt (n : Z)
| PyStr (s : string).

(** [None] for an absent optional string, [str] otherwise. *)
Definition of_optional_str (o : option string) : pyval :=
  match o with
  | Some s => PyStr s
  | None => PyNone
  end.

(** Address of a [dict] object in the store. *)
Abbreviation loc := positive.

(** ** Data model (api_key_manager.py, lines 23-35) *)

(** Value stored in [_api_keys]:
    {"scopes", "rate_limit", "created_at", "expires_at", "metadata"}.
    Every writer of the store sets all five keys. *)
Record key_info : Type := KeyInfo {
  scopes : list string;
  rate_limit : Z;
  created_at : Z;
  expires_at : Z;
  metadata : loc
}.

(** Value stored in [_request_tracker]: {"requests", "window_start"}. *)
Record tracker : Type := Tracker {
  requests : Z;
  window_start : Z
}.

Record APIKeyManager : Type := Manager {
  _api_keys : gmap string key_info;
  _request_tracker : gmap string tracker;
  _rate_limit_window : Z;
  _default_rate_limit : Z
}.

(** The process: the singleton manager, the dict objects, and how many
    times the clock and the identifier source have been consulted. *)
Record World : Type := MkWorld {
  api_key_manager : APIKeyManager;
  objects : gmap loc (gmap string pyval);
  time_reads : nat;
  uuid_draws : nat
}.

Record Env : Type := MkEnv {
  sha256_hexdigest : string -> string;
  clock : nat -> Z;
  uuid4_hex : nat -> string;
  environ : gmap string string
}.

(** ** Outcomes and the monad of methods *)

Inductive exn : Type :=
| KeyError (key : string)
| AttributeError
| OverflowError
| OtherError (what : string).

Inductive outcome (A : Type) : Type :=
| Return (a : A)
| Raise (e : exn).
Arguments Return {A} a.
Arguments Raise {A} e.

Definition M (A : Type) : Type := World -> outcome A * World.

Definition ret {A} (a : A) : M A := fun w => (Return a, w).

Definition raise {A} (e : exn) : M A := fun w => (Raise e, w).

Definition bind {A B} (m : M A) (f : A -> M B) : M B :=
  fun w =>
    match m w with
    | (Return a, w') => f a w'
    | (Raise e, w') => (Raise e, w')
    end.

Notation "x <- c1 ;; c2" := (bind c1 (fun x => c2))
  (at level 100, c1 at next level, right associativity).
Notation "c1 ;; c2" := (bind c1 (fun _ => c2))
  (at level 100, right associativity).

Definition gets {A} (f : World -> A) : M A := fun w => (Return (f w), w).

Definition modify (f : World -> World) : M unit := fun w => (Return tt, f w).

Definition with_manager (f : APIKeyManager -> APIKeyManager) (w : World) : World :=
  MkWorld (f (api_key_manager w)) (objects w) (time_reads w) (uuid_draws w).

Definition with_api_keys (f : gmap string key_info -> gmap string key_info)
    (m : APIKeyManager) : APIKeyManager :=
  Manager (f (_api_keys m)) (_request_tracker m) (_rate_limit_window m)
          (_default_rate_limit m).

Definition with_request_tracker (f : gmap string tracker -> gmap string tracker)
    (m : APIKeyManager) : APIKeyManager :=
  Manager (_api_keys m) (f (_request_tracker m)) (_rate_limit_window m)
          (_default_rate_limit m).

Definition with_objects
    (f : gmap loc (gmap string pyval) -> gmap loc (gmap string pyval))
    (w : World) : World :=
  MkWorld (api_key_manager w) (f (objects w)) (time_reads w) (uuid_draws w).

(** ** A float plus an int *)

(** The least magnitude of an [int] that does not convert to a float
    ("int too large to convert to float"): halfway between the greatest
    double, [2^1024 - 2^971], and [2^1024]. *)
Definition DBL_OVERFLOW : Z := 2 ^ 1024 - 2 ^ 970.

Definition overflows (n : Z) : bool := Z.abs n >=? DBL_OVERFLOW.

(** [t + n] for a float [t] and an int [n]: [n] is converted to a float
    first, which raises [OverflowError] when it is too large; the sum is
    then taken as the exact one. *)
Definition float_add_int (t n : Z) : M Z :=
  if overflows n then raise OverflowError else ret (t + n).

(** The float sum of two integers is the exact sum, with nothing rounded,
    when both and their sum have at most 53 bits. *)
Definition float_exact (t n : Z) : Prop :=
  Z.abs t <= 2 ^ 53 /\ Z.abs n <= 2 ^ 53 /\ Z.abs (t + n) <= 2 ^ 53.

(** Python truthiness of an optional string: [None] and [""] are falsy. *)
Definition truthy (o : option string) : bool :=
  match o with
  | Some s => negb (String.eqb s "")
  | None => false
  end.

(** [x in l] on a list of strings. *)
Definition py_in (x : string) (l : list string) : bool :=
  existsb (String.eqb x) l.

Section Manager.

Variable env : Env.

(** [time.time()] *)
Definition time_time : M Z :=
  fun w =>
    (Return (clock env (time_reads w)),
     MkWorld (api_key_manager w) (objects w) (S (time_reads w)) (uuid_draws w)).

(** [uuid.uuid4().hex] *)
Definition uuid4 : M string :=
  fun w =>
    (Return (uuid4_hex env (uuid_draws w)),
     MkWorld (api_key_manager w) (objects w) (time_reads w) (S (uuid_draws w))).

(** A dict display [{...}]: a new object. *)
Definition new_dict (d : gmap string pyval) : M loc :=
  fun w =>
    let l := fresh (dom (objects w)) in
    (Return l, with_objects (insert l d) w).

(** [d.update(other)]: the keys of [other] override. *)
Definition dict_update (l : loc) (other : gmap string pyval) : M unit :=
  modify (with_objects (alter (fun d => other ∪ d) l)).

(** [self._api_keys[key_hash]] *)
Definition api_keys_getitem (key_hash : string) : M key_info :=
  fun w =>
    match _api_keys (api_key_manager w) !! key_hash with
    | Some key_info => (Return key_info, w)
    | None => (Raise (KeyError key_hash), w)
    end.

(** [self._api_keys[key_hash] = key_info] *)
Definition api_keys_setitem (key_hash : string) (ki : key_info) : M unit :=
  modify (with_manager (with_api_keys (insert key_hash ki))).

(** [self._request_tracker[key_hash]] *)
Definition request_tracker_getitem (key_hash : string) : M tracker :=
  fun w =>
    match _request_tracker (api_key_manager w) !! key_hash with
    | Some t => (Return t, w)
    | None => (Raise (KeyError key_hash), w)
    end.

(** [self._request_tracker[key_hash] = t], also used for a store through
    the alias [tracker] of that entry. *)
Definition request_tracker_setitem (key_hash : string) (t : tracker) : M unit :=
  modify (with_manager (with_request_tracker (insert key_hash t))).

(** [_hash_key] (line 59) *)
Definition _hash_key (api_key : string) : string :=
  sha256_hexdigest env api_key.

(** [_load_default_api_key] (lines 40-57) *)
Definition _load_default_api_key : M unit :=
  let default_key := default "test-mcp-api-key-local-dev" (environ env !! "MCP_API_KEY") in
  let default_key_hash := _hash_key default_key in
  api_keys <- gets (fun w => _api_keys (api_key_manager w)) ;;
  match api_keys !! default_key_hash with
  | Some _ => ret tt
  | None =>
      default_rate_limit <- gets (fun w => _default_rate_limit (api_key_manager w)) ;;
      created <- time_time ;;
      now <- time_time ;;
      md <- new_dict {[ "name" := PyStr "Default Development API Key";
                        "created_by" := PyStr "system" ]} ;;
      api_keys_setitem default_key_hash
        (KeyInfo ["*"] default_rate_limit created (now + 365 * 24 * 3600) md)
  end.

(** [__init__] (lines 21-38) *)
Definition APIKeyManager__init__ : M unit :=
  modify (with_manager (fun _ => Manager ∅ ∅ 3600 1000)) ;;
  _load_default_api_key.

(** The messages of the five error conditions, as the code spells them. *)
Definition MissingCredential : string := "API key is required".
Definition UnknownCredential : string := "Invalid API key".
Definition Expired : string := "API key has expired".
Definition ScopeDenied (scope : string) : string :=
  "API key does not have permission for " +:+ scope.
Definition RateLimitExceeded : string := "API rate limit exceeded".

(** [validate_key] (lines 63-90) *)
Definition validate_key (api_key : option string) (scope : option string)
  : M (bool * option string) :=
  match api_key with
  | None => ret (false, Some MissingCredential)
  | Some api_key =>
      if negb (truthy (Some api_key)) then ret (false, Some MissingCredential)
      else
      let key_hash := _hash_key api_key in
      api_keys <- gets (fun w => _api_keys (api_key_manager w)) ;;
      match api_keys !! key_hash with
      | None => ret (false, Some UnknownCredential)
      | Some key_info =>
          now <- time_time ;;
          if expires_at key_info <? now then ret (false, Some Expired)
          else
            match scope with
            | Some scope =>
                if truthy (Some scope) && negb (py_in scope (scopes key_info))
                   && negb (py_in "*" (scopes key_info))
                then ret (false, Some (ScopeDenied scope))
                else ret (true, None)
            | None => ret (true, None)
            end
      end
  end.

(** [check_rate_limit] (lines 92-123).  [tracker] is an alias of the entry
    of [_request_tracker]: stores through it are stores into the entry.
    [key_info.get("rate_limit", ...)] always finds the key. *)
Definition check_rate_limit (api_key : string) : M (bool * option string) :=
  let key_hash := _hash_key api_key in
  request_tracker <- gets (fun w => _request_tracker (api_key_manager w)) ;;
  match request_tracker !! key_hash with
  | None =>
      now <- time_time ;;
      request_tracker_setitem key_hash (Tracker 0 now)
  | Some _ => ret tt
  end ;;
  tracker <- request_tracker_getitem key_hash ;;
  key_info <- api_keys_getitem key_hash ;;
  current_time <- time_time ;;
  window <- gets (fun w => _rate_limit_window (api_key_manager w)) ;;
  (if current_time - window_start tracker >? window
   then request_tracker_setitem key_hash (Tracker 0 current_time)
   else ret tt) ;;
  tracker <- request_tracker_getitem key_hash ;;
  if requests tracker >=? rate_limit key_info
  then ret (false, Some RateLimitExceeded)
  else
    request_tracker_setitem key_hash
      (Tracker (requests tracker + 1) (window_start tracker)) ;;
    ret (true, None).

(** [generate_key] (lines 125-155).  [expires_in_days] defaults to 90 at the
    call site; [metadata], when given, is the caller's dict object.  The
    dict display of the record is evaluated entry by entry, so the sum for
    ["expires_at"] can raise before anything is stored. *)
Definition generate_key (scopes : option (list string)) (rate_limit : option Z)
    (expires_in_days : Z) (metadata : option loc) : M string :=
  hex <- uuid4 ;;
  let api_key := "sk-" +:+ hex in
  let key_hash := _hash_key api_key in
  let scopes := default ["*"] scopes in
  default_rate_limit <- gets (fun w => _default_rate_limit (api_key_manager w)) ;;
  let rate_limit := default default_rate_limit rate_limit in
  metadata <- match metadata with
              | None => new_dict ∅
              | Some l => ret l
              end ;;
  created <- time_time ;;
  now <- time_time ;;
  expires <- float_add_int now (expires_in_days * 24 * 3600) ;;
  api_keys_setitem key_hash (KeyInfo scopes rate_limit created expires metadata) ;;
  ret api_key.

(** [revoke_key] (lines 157-168) *)
Definition revoke_key (api_key : string) : M bool :=
  let key_hash := _hash_key api_key in
  api_keys <- gets (fun w => _api_keys (api_key_manager w)) ;;
  match api_keys !! key_hash with
  | Some _ =>
      modify (with_manager (with_api_keys (delete key_hash))) ;;
      request_tracker <- gets (fun w => _request_tracker (api_key_manager w)) ;;
      match request_tracker !! key_hash with
      | Some _ => modify (with_manager (with_request_tracker (delete key_hash)))
      | None => ret tt
      end ;;
      ret true
  | None => ret false
  end.

(** [update_key] (lines 170-195).  [key_info] is an alias of the entry of
    [_api_keys]; each assignment is a store into that entry, so a sum for
    ["expires_at"] that raises leaves the scopes and the rate limit already
    stored. *)
Definition update_key (api_key : string) (new_scopes : option (list string))
    (new_rate_limit : option Z) (expires_in_days : option Z)
    (new_metadata : option (gmap string pyval)) : M bool :=
  let key_hash := _hash_key api_key in
  api_keys <- gets (fun w => _api_keys (api_key_manager w)) ;;
  match api_keys !! key_hash with
  | None => ret false
  | Some _ =>
      match new_scopes with
      | Some s =>
          ki <- api_keys_getitem key_hash ;;
          api_keys_setitem key_hash
            (KeyInfo s (rate_limit ki) (created_at ki) (expires_at ki) (metadata ki))
      | None => ret tt
      end ;;
      match new_rate_limit with
      | Some r =>
          ki <- api_keys_getitem key_hash ;;
          api_keys_setitem key_hash
            (KeyInfo (scopes ki) r (created_at ki) (expires_at ki) (metadata ki))
      | None => ret tt
      end ;;
      match expires_in_days with
      | Some days =>
          now <- time_time ;;
          expires <- float_add_int now (days * 24 * 3600) ;;
          ki <- api_keys_getitem key_hash ;;
          api_keys_setitem key_hash
            (KeyInfo (scopes ki) (rate_limit ki) (created_at ki) expires
                     (metadata ki))
      | None => ret tt
      end ;;
      match new_metadata with
      | Some other =>
          ki <- api_keys_getitem key_hash ;;
          dict_update (metadata ki) other
      | None => ret tt
      end ;;
      ret true
  end.

End Manager.

(** ** The request gate (api_key_middleware.py) *)

(** The parts of a FastAPI request that the gate reads. *)
Record Request : Type := MkRequest {
  url_path : string;
  method : string;
  headers : gmap string string
}.

(** A response is either the [JSONResponse] the gate builds or whatever the
    rest of the application produced. *)
Inductive Response : Type :=
| JSONResponse (status_code : Z) (content : gmap string pyval)
| StreamingResponse (status_code : Z) (body : list string).

Definition HTTP_401_UNAUTHORIZED : Z := 401.
Definition HTTP_429_TOO_MANY_REQUESTS : Z := 429.

Record APIKeyMiddleware : Type := Middleware {
  exclude_paths : list string;
  header_name : string
}.

(** [__init__] (lines 22-38): [exclude_paths or [...]] takes the default
    list for [None] and for the empty list. *)
Definition APIKeyMiddleware__init__ (exclude_paths : option (list string))
    (header_name : string) : APIKeyMiddleware :=
  Middleware
    (match exclude_paths with
     | Some (p :: ps) => p :: ps
     | Some [] | None => ["/docs"; "/redoc"; "/openapi.json"; "/health"]
     end)
    header_name.

(** What [dispatch] asks of its surroundings: the clock, the two methods of
    the singleton manager, and the rest of the application. *)
Inductive call : Type -> Type :=
| call_time : call Z
| call_validate_key (api_key : option string) (scope : option string)
    : call (bool * option string)
| call_check_rate_limit (api_key : option string) : call (bool * option string)
| call_next (request : Request) : call Response.

(** A computation that performs calls one after the other. *)
Inductive Prog (R : Type) : Type :=
| Done (r : R)
| Do {A : Type} (c : call A) (k : A -> Prog R).
Arguments Done {R} r.
Arguments Do {R A} c k.

(** The body of both rejections: [{"success": False, "message": m}]. *)
Definition rejection (m : option string) : gmap string pyval :=
  {[ "success" := PyBool false; "message" := of_optional_str m ]}.

(** [request.url.path.startswith(path) for path in self.exclude_paths] *)
Definition excluded (self : APIKeyMiddleware) (request : Request) : bool :=
  existsb (fun path => String.prefix path (url_path request)) (exclude_paths self).

(** [dispatch] (lines 40-90) *)
Definition dispatch (self : APIKeyMiddleware) (request : Request) : Prog Response :=
  if excluded self request then Do (call_next request) Done
  else
    Do call_time (fun start_time =>
    let api_key := headers request !! header_name self in
    Do (call_validate_key api_key None) (fun '(is_valid, error_message) =>
    if negb is_valid
    then Done (JSONResponse HTTP_401_UNAUTHORIZED (rejection error_message))
    else
      Do (call_check_rate_limit api_key) (fun '(is_allowed, limit_message) =>
      if negb is_allowed
      then Done (JSONResponse HTTP_429_TOO_MANY_REQUESTS (rejection limit_message))
      else
        Do (call_next request) (fun response =>
        Do call_time (fun now =>
        let process_time := now - start_time in
        Done response))))).

(** What an observer of the gate sees of one request. *)
Inductive event : Type :=
| validate_called (api_key : option string) (scope : option string)
| check_rate_limit_called (api_key : option string)
| handler_called (request : Request).

Definition observe {A} (c : call A) : list event :=
  match c with
  | call_time => []
  | call_validate_key api_key scope => [validate_called api_key scope]
  | call_check_rate_limit api_key => [check_rate_limit_called api_key]
  | call_next request => [handler_called request]
  end.

Section Gate.

Variable env : Env.

(** The rest of the application, behind the gate. *)
Variable downstream : Request -> M Response.

(** Each call lands on the manager singleton, the clock or the application.
    [_hash_key] calls [api_key.encode()], which [None] does not have. *)
Definition perform {A} (c : call A) : M A :=
  match c in call T return M T with
  | call_time => time_time env
  | call_validate_key api_key scope => validate_key env api_key scope
  | call_check_rate_limit (Some api_key) => check_rate_limit env api_key
  | call_check_rate_limit None => raise AttributeError
  | call_next request => downstream request
  end.

(** Running a computation: an exception ends it where it is raised. *)
Fixpoint run {R} (p : Prog R) (w : World) : outcome R * World * list event :=
  match p with
  | Done r => (Return r, w, [])
  | Do c k =>
      match perform c w with
      | (Return a, w') =>
          let '(o, w'', evs) := run (k a) w' in (o, w'', (observe c ++ evs)%list)
      | (Raise e, w') => (Raise e, w', observe c)
      end
  end.

End Gate.

(** ** Worlds after an effect *)

(** The world after one reading of the clock. *)
Definition ticked (w : World) : World :=
  MkWorld (api_key_manager w) (objects w) (S (time_reads w)) (uuid_draws w).

(** The world after a store into the tracker of [key_hash]. *)
Definition tracked (key_hash : string) (t : tracker) (w : World) : World :=
  with_manager (with_request_tracker (insert key_hash t)) w.

(** The record and the tracker of a digest. *)
Definition record_of (w : World) (key_hash : string) : option key_info :=
  _api_keys (api_key_manager w) !! key_hash.

Definition tracker_of (w : World) (key_hash : string) : option tracker :=
  _request_tracker (api_key_manager w) !! key_hash.

Ltac run_monad :=
  unfold bind, gets, modify, ret, raise, time_time, uuid4, new_dict, dict_update,
    api_keys_getitem, api_keys_setitem, request_tracker_getitem,
    request_tracker_setitem, with_manager, with_request_tracker, with_api_keys,
    with_objects;
  cbn [api_key_manager objects time_reads uuid_draws _api_keys _request_tracker
       _rate_limit_window _default_rate_limit fst snd].

(** ** Histories of the manager *)

(** One call of a public method, or of the bootstrap, on the singleton. *)
Inductive op : Type :=
| op_load_default
| op_generate (scopes : option (list string)) (rate_limit : option Z)
    (expires_in_days : Z) (metadata : option loc)
| op_update (api_key : string) (scopes : option (list string))
    (rate_limit : option Z) (expires_in_days : option Z)
    (metadata : option (gmap string pyval))
| op_validate (api_key : option string) (scope : option string)
| op_check_rate_limit (api_key : string)
| op_revoke (api_key : string).

(** The world a call leaves behind, whether it returned or raised. *)
Definition perform_op (env : Env) (o : op) (w : World) : World :=
  match o with
  | op_load_default => snd (_load_default_api_key env w)
  | op_generate scopes rate_limit expires_in_days metadata =>
      snd (generate_key env scopes rate_limit expires_in_days metadata w)
  | op_update api_key scopes rate_limit expires_in_days metadata =>
      snd (update_key env api_key scopes rate_limit expires_in_days metadata w)
  | op_validate api_key scope => snd (validate_key env api_key scope w)
  | op_check_rate_limit api_key => snd (check_rate_limit env api_key w)
  | op_revoke api_key => snd (revoke_key env api_key w)
  end.

(** The state reached from the creation of the manager by a sequence of
    calls. *)
Definition after (env : Env) (ops : list op) (w0 : World) : World :=
  fold_left (fun w o => perform_op env o w) ops (snd (APIKeyManager__init__ env w0)).

(** The calls that the sentence on lifetimes speaks of. *)
Definition issues_or_updates (o : op) : Prop :=
  match o with
  | op_load_default | op_generate _ _ _ _ | op_update _ _ _ _ _ => True
  | _ => False
  end.

(** Every number of days passed to the call is strictly positive. *)
Definition positive_days (o : op) : Prop :=
  match o with
  | op_generate _ _ expires_in_days _ => 0 < expires_in_days
  | op_update _ _ _ (Some expires_in_days) _ => 0 < expires_in_days
  | _ => True
  end.

(** The clock never goes back. *)
Definition monotone_clock (env : Env) : Prop :=
  forall i j : nat, (i <= j)%nat -> clock env i <= clock env j.

(** Every record expires after it was created. *)
Definition lifetimes_positive (w : World) : Prop :=
  forall h ki, record_of w h = Some ki -> created_at ki < expires_at ki.

(** Every record expires after it was created, and was created no later
    than any reading of the clock still to come. *)
Definition records_sound (env : Env) (w : World) : Prop :=
  forall h ki, record_of w h = Some ki ->
    created_at ki < expires_at ki /\
    forall n : nat, (time_reads w <= n)%nat -> created_at ki <= clock env n.

(** ** A small concrete environment, for examples *)

Definition demo_env : Env :=
  MkEnv (fun s => s) (fun n => Z.of_nat n) (fun n => "0") ∅.

Definition start : World := MkWorld (Manager ∅ ∅ 3600 1000) ∅ 0 0.

(** The manager as the module creates it, and after one key with a limit of
    three requests has been issued (the key is ["sk-0"]). *)
Definition booted : World := snd (APIKeyManager__init__ demo_env start).

Definition limited : World :=
  snd (generate_key demo_env None (Some 3) 90 None booted).

Definition limited_record : key_info := KeyInfo ["*"] 3 2 7776003 2.

(** An environment whose clock advances 4000 units per reading, so that
    every reading falls in a new window, and a key issued there with a rate
    limit of zero (the key is ["sk-0"]), before and after its first rate
    check. *)
Definition slow_env : Env :=
  MkEnv (fun s => s) (fun n => 4000 * Z.of_nat n) (fun n => "0") ∅.

Definition zero_limit : World :=
  snd (generate_key slow_env None (Some 0) 90 None
         (snd (APIKeyManager__init__ slow_env start))).

Definition zero_limit_checked : World :=
  snd (check_rate_limit slow_env "sk-0" zero_limit).

Definition zero_limit_record : key_info := KeyInfo ["*"] 0 8000 7788000 2.

(** The same with a limit of three, the limit reached in a window that
    started at time 0. *)
Definition spaced : World :=
  tracked "sk-0" (Tracker 3 0)
    (snd (generate_key slow_env None (Some 3) 90 None
            (snd (APIKeyManager__init__ slow_env start)))).

Definition spaced_record : key_info := KeyInfo ["*"] 3 8000 7788000 2.

(** A key of the demo environment whose only scope is ["read"] (the key is
    ["sk-0"] again). *)
Definition scoped : World :=
  snd (generate_key demo_env (Some ["read"]) None 90 None booted).

Definition scoped_record : key_info := KeyInfo ["read"] 1000 2 7776003 2.

(** A gate with the default allow-list and header name, an application
    that answers 200 with the path it was asked for, and three requests. *)
Definition gate : APIKeyMiddleware := APIKeyMiddleware__init__ None "X-API-Key".

Definition echo (request : Request) : M Response :=
  ret (StreamingResponse 200 [url_path request]).

Definition anonymous_request : Request := MkRequest "/api/jobs" "GET" ∅.

Definition keyed_request : Request :=
  MkRequest "/api/jobs" "GET" {[ "X-API-Key" := "sk-0" ]}.

Definition health_request : Request := MkRequest "/health/live" "GET" ∅.

(** The limit-3 key with its three requests of the window used up. *)
Definition exhausted : World := tracked "sk-0" (Tracker 3 4) limited.

(** An environment whose configured default credential is the empty
    string, and the manager created there. *)
Definition blank_env : Env :=
  MkEnv (fun s => s) (fun n => Z.of_nat n) (fun n => "0") {[ "MCP_API_KEY" := "" ]}.

Definition blank_booted : World := snd (APIKeyManager__init__ blank_env start).

(** The world after [revoke_key] has found a record for [key_hash]. *)
Definition revoked (key_hash : string) (w : World) : World :=
  with_manager (with_request_tracker (delete key_hash))
    (with_manager (with_api_keys (delete key_hash)) w).

(** The manager of the demo environment after a rate check for a
    credential that was never issued. *)
Definition stray : World := snd (check_rate_limit demo_env "sk-9" booted).

(** ** Introspection (api_key_manager.py, lines 197-256) *)



Section Introspection.

Variable env : Env.

(** [datetime.fromtimestamp(t).isoformat()] *)
Variable isoformat : Z -> string.




End Introspection.

(** ** Callers' loops and invariants used in the properties *)

(** [n] successive calls of [check_rate_limit] for one credential, with
    their outcomes. *)
Fixpoint check_rate_limit_times (env : Env) (api_key : string) (n : nat) (w : World)
  : list (outcome (bool * option string)) * World :=
  match n with
  | O => ([], w)
  | S n' =>
      let '(r, w') := check_rate_limit env api_key w in
      let '(rs, w'') := check_rate_limit_times env api_key n' w' in
      (r :: rs, w'')
  end.

(** Every tracker belongs to a stored record. *)
Definition trackers_have_records (w : World) : Prop :=
  forall h, is_Some (tracker_of w h) -> is_Some (record_of w h).

(** The default credential of [_load_default_api_key]. *)
Definition default_key (env : Env) : string :=
  default "test-mcp-api-key-local-dev" (environ env !! "MCP_API_KEY").

(** An environment that hands out two different identifiers, and two keys
    issued there with one and the same metadata dict (["sk-a"], ["sk-b"]). *)
Definition pair_env : Env :=
  MkEnv (fun s => s) (fun n => Z.of_nat n)
        (fun n => match n with O => "a" | _ => "b" end) ∅.

Definition shared : World :=
  let w0 := snd (APIKeyManager__init__ pair_env start) in
  let '(l, w1) := new_dict {[ "team" := PyStr "ops" ]} w0 in
  match l with
  | Return l =>
      snd (generate_key pair_env None None 90 (Some l)
             (snd (generate_key pair_env None None 90 (Some l) w1)))
  | Raise _ => w1
  end.

(** * Properties *)

Section ManagerFacts.

Variable env : Env.

Lemma tracker_of_tracked h t w : tracker_of (tracked h t w) h = Some t.
Proof. unfold tracker_of, tracked. simpl. apply lookup_insert_eq. Qed.

Lemma record_of_tracked h t w h' : record_of (tracked h t w) h' = record_of w h'.
Proof. reflexivity. Qed.

Lemma record_of_ticked w h : record_of (ticked w) h = record_of w h.
Proof. reflexivity. Qed.

Lemma tracker_of_ticked w h : tracker_of (ticked w) h = tracker_of w h.
Proof. reflexivity. Qed.

(** [check_rate_limit] on a credential that has a record and a tracker. *)
Lemma check_rate_limit_known (w : World) (api_key : string) ki tr :
  record_of w (_hash_key env api_key) = Some ki ->
  tracker_of w (_hash_key env api_key) = Some tr ->
  check_rate_limit env api_key w =
    let h := _hash_key env api_key in
    let now := clock env (time_reads w) in
    let expired := now - window_start tr >? _rate_limit_window (api_key_manager w) in
    let tr1 := if expired then Tracker 0 now else tr in
    let w1 := if expired then tracked h tr1 (ticked w) else ticked w in
    if requests tr1 >=? rate_limit ki
    then (Return (false, Some RateLimitExceeded), w1)
    else (Return (true, None),
          tracked h (Tracker (requests tr1 + 1) (window_start tr1)) w1).
Proof.
  unfold record_of, tracker_of. intros Hk Ht.
  unfold check_rate_limit, tracked, ticked. run_monad.
  rewrite Ht. run_monad. rewrite Ht, Hk. run_monad.
  destruct (clock env (time_reads w) - window_start tr >?
            _rate_limit_window (api_key_manager w)) eqn:Hexp; run_monad.
  - rewrite lookup_insert_eq. cbn [requests window_start].
    destruct (0 >=? rate_limit ki) eqn:Hlim; reflexivity.
  - rewrite Ht.
    destruct (requests tr >=? rate_limit ki) eqn:Hlim; reflexivity.
Qed.

(** The first call for a credential creates its tracker, then goes on as
    any other call. *)
Lemma check_rate_limit_first (w : World) (api_key : string) :
  tracker_of w (_hash_key env api_key) = None ->
  check_rate_limit env api_key w =
    check_rate_limit env api_key
      (tracked (_hash_key env api_key) (Tracker 0 (clock env (time_reads w)))
               (ticked w)).
Proof.
  unfold tracker_of. intros Ht.
  unfold check_rate_limit, tracked, ticked. run_monad. rewrite Ht. run_monad.
  repeat (rewrite lookup_insert_eq; run_monad).
  reflexivity.
Qed.

(** Without a record the look-up of line 107 raises; a tracker has been
    stored by then when there was none. *)
Lemma check_rate_limit_no_record_fresh (w : World) (api_key : string) :
  record_of w (_hash_key env api_key) = None ->
  tracker_of w (_hash_key env api_key) = None ->
  check_rate_limit env api_key w =
    (Raise (KeyError (_hash_key env api_key)),
     tracked (_hash_key env api_key) (Tracker 0 (clock env (time_reads w)))
             (ticked w)).
Proof.
  unfold record_of, tracker_of. intros Hk Ht.
  unfold check_rate_limit, tracked, ticked. run_monad. rewrite Ht.
  run_monad. rewrite lookup_insert_eq. run_monad. rewrite Hk. reflexivity.
Qed.

Lemma check_rate_limit_no_record_tracked (w : World) (api_key : string) tr :
  record_of w (_hash_key env api_key) = None ->
  tracker_of w (_hash_key env api_key) = Some tr ->
  check_rate_limit env api_key w = (Raise (KeyError (_hash_key env api_key)), w).
Proof.
  unfold record_of, tracker_of. intros Hk Ht.
  unfold check_rate_limit. run_monad. rewrite Ht. run_monad.
  rewrite Ht, Hk. reflexivity.
Qed.

End ManagerFacts.

Section RateLimit.

Variable env : Env.

(** Inside the window and under the limit: admitted, one more request. *)
Lemma check_rate_limit_admits (w : World) (api_key : string) ki tr :
  record_of w (_hash_key env api_key) = Some ki ->
  tracker_of w (_hash_key env api_key) = Some tr ->
  clock env (time_reads w) - window_start tr <= _rate_limit_window (api_key_manager w) ->
  requests tr < rate_limit ki ->
  check_rate_limit env api_key w =
    (Return (true, None),
     tracked (_hash_key env api_key)
       (Tracker (requests tr + 1) (window_start tr)) (ticked w)).
Proof.
  intros Hk Ht Hwin Hlim. rewrite (check_rate_limit_known env w api_key ki tr Hk Ht).
  cbv zeta.
  replace (clock env (time_reads w) - window_start tr >?
           _rate_limit_window (api_key_manager w)) with false by (symmetry; lia).
  replace (requests tr >=? rate_limit ki) with false by (symmetry; lia).
  reflexivity.
Qed.

(** Inside the window and at the limit: rejected, only the clock was read. *)
Lemma check_rate_limit_rejects (w : World) (api_key : string) ki tr :
  record_of w (_hash_key env api_key) = Some ki ->
  tracker_of w (_hash_key env api_key) = Some tr ->
  clock env (time_reads w) - window_start tr <= _rate_limit_window (api_key_manager w) ->
  rate_limit ki <= requests tr ->
  check_rate_limit env api_key w = (Return (false, Some RateLimitExceeded), ticked w).
Proof.
  intros Hk Ht Hwin Hlim. rewrite (check_rate_limit_known env w api_key ki tr Hk Ht).
  cbv zeta.
  replace (clock env (time_reads w) - window_start tr >?
           _rate_limit_window (api_key_manager w)) with false by (symmetry; lia).
  replace (requests tr >=? rate_limit ki) with true by (symmetry; lia).
  reflexivity.
Qed.

(** C1.  For a stored record with rate limit N whose tracker is inside the
    current window, [check_rate_limit] returns [(True, None)] and adds
    exactly one to [requests] when [requests < N], and returns
    [(False, "API rate limit exceeded")] leaving the tracker as it is when
    [requests >= N].  In particular, for a record with limit 3 and no
    tracker yet, four calls made in one window give True, True, True, False
    with [requests] equal to 1, 2, 3 and 3. *)
Theorem check_rate_limit_counts (w : World) (api_key : string) (ki : key_info) :
  let h := _hash_key env api_key in
  let now := clock env (time_reads w) in
  let window := _rate_limit_window (api_key_manager w) in
  record_of w h = Some ki ->
  (forall tr, tracker_of w h = Some tr -> now - window_start tr <= window ->
     (requests tr < rate_limit ki ->
        check_rate_limit env api_key w =
          (Return (true, None),
           tracked h (Tracker (requests tr + 1) (window_start tr)) (ticked w))) /\
     (requests tr >= rate_limit ki ->
        check_rate_limit env api_key w =
          (Return (false, Some RateLimitExceeded), ticked w) /\
        tracker_of (ticked w) h = Some tr)) /\
  (rate_limit ki = 3 -> tracker_of w h = None ->
   (forall i, (time_reads w < i <= time_reads w + 4)%nat -> clock env i - now <= window) ->
   exists w1 w2 w3 w4,
     check_rate_limit env api_key w = (Return (true, None), w1) /\
     tracker_of w1 h = Some (Tracker 1 now) /\
     check_rate_limit env api_key w1 = (Return (true, None), w2) /\
     tracker_of w2 h = Some (Tracker 2 now) /\
     check_rate_limit env api_key w2 = (Return (true, None), w3) /\
     tracker_of w3 h = Some (Tracker 3 now) /\
     check_rate_limit env api_key w3 = (Return (false, Some RateLimitExceeded), w4) /\
     tracker_of w4 h = Some (Tracker 3 now)).
Proof.
  intros h now window Hk. split.
  - intros tr Ht Hwin. split.
    + intros Hlim. apply (check_rate_limit_admits w api_key ki tr); assumption.
    + intros Hlim. split.
      * apply (check_rate_limit_rejects w api_key ki tr); try assumption. lia.
      * exact Ht.
  - intros H3 Hnone Hclock.
    set (w0 := tracked h (Tracker 0 now) (ticked w)).
    set (w1 := tracked h (Tracker 1 now) (ticked w0)).
    set (w2 := tracked h (Tracker 2 now) (ticked w1)).
    set (w3 := tracked h (Tracker 3 now) (ticked w2)).
    exists w1, w2, w3, (ticked w3).
    assert (Hstep : forall v n, record_of v h = Some ki ->
              tracker_of v h = Some (Tracker n now) ->
              _rate_limit_window (api_key_manager v) = window ->
              (time_reads w < time_reads v <= time_reads w + 4)%nat ->
              n < 3 ->
              check_rate_limit env api_key v =
                (Return (true, None), tracked h (Tracker (n + 1) now) (ticked v))).
    { intros v n Hkv Htv Hwv Hrv Hn.
      rewrite (check_rate_limit_admits v api_key ki (Tracker n now) Hkv Htv).
      - reflexivity.
      - rewrite Hwv. cbn [window_start]. apply Hclock. exact Hrv.
      - cbn [requests]. lia. }
    rewrite (check_rate_limit_first env w api_key Hnone). fold h now w0.
    repeat split.
    + apply (Hstep w0 0);
        [exact Hk | apply tracker_of_tracked | reflexivity | cbn; lia | lia].
    + apply tracker_of_tracked.
    + apply (Hstep w1 1);
        [exact Hk | apply tracker_of_tracked | reflexivity | cbn; lia | lia].
    + apply tracker_of_tracked.
    + apply (Hstep w2 2);
        [exact Hk | apply tracker_of_tracked | reflexivity | cbn; lia | lia].
    + apply tracker_of_tracked.
    + apply (check_rate_limit_rejects w3 api_key ki (Tracker 3 now)).
      * exact Hk.
      * apply tracker_of_tracked.
      * cbn [window_start]. apply Hclock. cbn. lia.
      * cbn [requests]. lia.
    + apply tracker_of_tracked.
Qed.

End RateLimit.

Lemma check_rate_limit_counts_witness :
  let used n := tracked "sk-0" (Tracker n 4) limited in
  check_rate_limit demo_env "sk-0" (used 1) =
    (Return (true, None), tracked "sk-0" (Tracker 2 4) (ticked (used 1))) /\
  check_rate_limit demo_env "sk-0" (used 3) =
    (Return (false, Some RateLimitExceeded), ticked (used 3)) /\
  exists w1 w2 w3 w4,
    check_rate_limit demo_env "sk-0" limited = (Return (true, None), w1) /\
    tracker_of w1 "sk-0" = Some (Tracker 1 4) /\
    check_rate_limit demo_env "sk-0" w1 = (Return (true, None), w2) /\
    tracker_of w2 "sk-0" = Some (Tracker 2 4) /\
    check_rate_limit demo_env "sk-0" w2 = (Return (true, None), w3) /\
    tracker_of w3 "sk-0" = Some (Tracker 3 4) /\
    check_rate_limit demo_env "sk-0" w3 = (Return (false, Some RateLimitExceeded), w4) /\
    tracker_of w4 "sk-0" = Some (Tracker 3 4).
Proof.
  intros used. split; [| split].
  - destruct (check_rate_limit_counts demo_env (used 1) "sk-0" limited_record
                ltac:(vm_compute; reflexivity)) as [H _].
    destruct (H (Tracker 1 4) ltac:(vm_compute; reflexivity)
                ltac:(vm_compute; discriminate)) as [Hadmit _].
    apply Hadmit. vm_compute. reflexivity.
  - destruct (check_rate_limit_counts demo_env (used 3) "sk-0" limited_record
                ltac:(vm_compute; reflexivity)) as [H _].
    destruct (H (Tracker 3 4) ltac:(vm_compute; reflexivity)
                ltac:(vm_compute; discriminate)) as [_ Hreject].
    apply Hreject. vm_compute. discriminate.
  - destruct (check_rate_limit_counts demo_env limited "sk-0" limited_record
                ltac:(vm_compute; reflexivity)) as [_ H].
    apply H.
    + reflexivity.
    + vm_compute. reflexivity.
    + intros i Hi. change (time_reads limited) with 4%nat in *.
      cbn [demo_env clock]. change (_rate_limit_window (api_key_manager limited)) with 3600.
      lia.
Defined.

(** ** Window reset *)

Section WindowReset.

Variable env : Env.

(** C2, as the code has it.  For a stored record with a tracker: when
    [now - window_start] exceeds the window length, the tracker is reset to
    [requests = 0], [window_start = now] before the limit is looked at, so
    the call succeeds and leaves [requests = 1] when the rate limit is at
    least 1, and is rejected with [requests = 0] when the rate limit is 0 or
    less; when it does not exceed the window length, the call returns and
    [window_start] is what it was.  The window length set by [__init__] is
    3600. *)
Theorem check_rate_limit_window_reset (w : World) (api_key : string) ki tr :
  let h := _hash_key env api_key in
  let now := clock env (time_reads w) in
  let window := _rate_limit_window (api_key_manager w) in
  record_of w h = Some ki ->
  tracker_of w h = Some tr ->
  (now - window_start tr > window ->
     (1 <= rate_limit ki ->
        exists w', check_rate_limit env api_key w = (Return (true, None), w') /\
                   tracker_of w' h = Some (Tracker 1 now)) /\
     (rate_limit ki <= 0 ->
        exists w', check_rate_limit env api_key w =
                     (Return (false, Some RateLimitExceeded), w') /\
                   tracker_of w' h = Some (Tracker 0 now))) /\
  (now - window_start tr <= window ->
     exists r w' tr', check_rate_limit env api_key w = (Return r, w') /\
                      tracker_of w' h = Some tr' /\
                      window_start tr' = window_start tr) /\
  (forall w0, _rate_limit_window
                (api_key_manager (snd (APIKeyManager__init__ env w0))) = 3600).
Proof.
  intros h now window Hk Ht.
  pose proof (check_rate_limit_known env w api_key ki tr Hk Ht) as Hrun.
  cbv zeta in Hrun. fold h now window in Hrun.
  split; [| split].
  - intros Hexp.
    replace (now - window_start tr >? window) with true in Hrun by (symmetry; lia).
    cbn [requests window_start] in Hrun. split.
    + intros Hpos.
      replace (0 >=? rate_limit ki) with false in Hrun by (symmetry; lia).
      eexists. split; [exact Hrun |]. apply tracker_of_tracked.
    + intros Hzero.
      replace (0 >=? rate_limit ki) with true in Hrun by (symmetry; lia).
      eexists. split; [exact Hrun |]. apply tracker_of_tracked.
  - intros Hin.
    replace (now - window_start tr >? window) with false in Hrun by (symmetry; lia).
    destruct (requests tr >=? rate_limit ki).
    + do 3 eexists. split; [exact Hrun |]. split; [exact Ht | reflexivity].
    + do 3 eexists. split; [exact Hrun |].
      split; [apply tracker_of_tracked | reflexivity].
  - intros w0. unfold APIKeyManager__init__, _load_default_api_key. run_monad.
    destruct (_ !! _); reflexivity.
Qed.

End WindowReset.

Lemma check_rate_limit_window_reset_witness :
  (exists w', check_rate_limit slow_env "sk-0" spaced = (Return (true, None), w') /\
              tracker_of w' "sk-0" = Some (Tracker 1 16000)) /\
  (exists w', check_rate_limit slow_env "sk-0" zero_limit_checked =
                (Return (false, Some RateLimitExceeded), w') /\
              tracker_of w' "sk-0" = Some (Tracker 0 24000)) /\
  (exists r w' tr', check_rate_limit demo_env "sk-0"
                      (tracked "sk-0" (Tracker 3 4) limited) = (Return r, w') /\
                    tracker_of w' "sk-0" = Some tr' /\ window_start tr' = 4).
Proof.
  split; [| split].
  - destruct (check_rate_limit_window_reset slow_env spaced "sk-0" spaced_record
                (Tracker 3 0) ltac:(vm_compute; reflexivity)
                ltac:(vm_compute; reflexivity)) as [H _].
    destruct (H ltac:(vm_compute; reflexivity)) as [Hadmit _].
    apply Hadmit. vm_compute. discriminate.
  - destruct (check_rate_limit_window_reset slow_env zero_limit_checked "sk-0"
                zero_limit_record (Tracker 0 20000) ltac:(vm_compute; reflexivity)
                ltac:(vm_compute; reflexivity)) as [H _].
    destruct (H ltac:(vm_compute; reflexivity)) as [_ Hreject].
    apply Hreject. vm_compute. discriminate.
  - destruct (check_rate_limit_window_reset demo_env
                (tracked "sk-0" (Tracker 3 4) limited) "sk-0" limited_record
                (Tracker 3 4) ltac:(vm_compute; reflexivity)
                ltac:(vm_compute; reflexivity)) as [_ [H _]].
    apply H. vm_compute. discriminate.
Defined.

(** The sentence of C2 fails on a key whose rate limit is zero: the call
    after the window has expired is rejected and [requests] stays 0. *)
Lemma check_rate_limit_window_reset_counterexample :
  ~ (forall (env : Env) (w : World) (api_key : string) ki tr,
       record_of w (_hash_key env api_key) = Some ki ->
       tracker_of w (_hash_key env api_key) = Some tr ->
       clock env (time_reads w) - window_start tr >
         _rate_limit_window (api_key_manager w) ->
       exists w', check_rate_limit env api_key w = (Return (true, None), w') /\
                  tracker_of w' (_hash_key env api_key) =
                    Some (Tracker 1 (clock env (time_reads w)))).
Proof.
  intros Hclaim.
  destruct (Hclaim slow_env zero_limit_checked "sk-0" zero_limit_record
              (Tracker 0 20000) ltac:(vm_compute; reflexivity)
              ltac:(vm_compute; reflexivity) ltac:(vm_compute; reflexivity))
    as [w' [Hrun _]].
  vm_compute in Hrun. discriminate Hrun.
Qed.

(** ** Validation *)

Lemma py_in_spec (x : string) (l : list string) : py_in x l = true <-> x ∈ l.
Proof.
  unfold py_in. rewrite existsb_exists, list_elem_of_In. split.
  - intros [y [Hy Heq]]. apply String.eqb_eq in Heq. subst y. exact Hy.
  - intros Hx. exists x. split; [exact Hx | apply String.eqb_refl].
Qed.

Lemma py_in_false (x : string) (l : list string) : py_in x l = false <-> x ∉ l.
Proof.
  rewrite <- py_in_spec. destruct (py_in x l); split; congruence.
Qed.

Lemma truthy_Some (s : string) : truthy (Some s) = true <-> s <> "".
Proof.
  unfold truthy. destruct (String.eqb_spec s ""); simpl; split; congruence.
Qed.

Section Validate.

Variable env : Env.

(** [validate_key] never stores anything: at most it reads the clock. *)
Lemma validate_key_world (w : World) api_key scope :
  snd (validate_key env api_key scope w) = w \/
  snd (validate_key env api_key scope w) = ticked w.
Proof.
  unfold validate_key. destruct api_key as [k |]; [| left; reflexivity].
  destruct (negb (truthy (Some k))); [left; reflexivity |]. run_monad.
  destruct (_ !! _) as [ki |]; [| left; reflexivity]. run_monad.
  destruct (expires_at ki <? _); [right; reflexivity |].
  destruct scope as [s |]; [| right; reflexivity].
  destruct (_ && _); right; reflexivity.
Qed.

(** A non-empty credential whose digest has no record is unknown. *)
Lemma validate_key_no_record (w : World) (api_key : string) scope :
  api_key <> "" ->
  record_of w (_hash_key env api_key) = None ->
  fst (validate_key env (Some api_key) scope w) =
    Return (false, Some UnknownCredential).
Proof.
  unfold record_of, validate_key. intros Hne Hk.
  apply truthy_Some in Hne. rewrite Hne. cbn [negb]. run_monad. rewrite Hk.
  reflexivity.
Qed.

(** C3, as the code has it.  [validate_key] returns
    [(False, "API key is required")] when the credential is [None] or empty;
    otherwise [(False, "Invalid API key")] when its digest has no record;
    otherwise [(False, "API key has expired")] when [now > expires_at];
    otherwise [(False, "API key does not have permission for <scope>")] when
    a non-empty scope is given and the record's scopes contain neither it
    nor ["*"]; otherwise [(True, None)], in particular when the scope is
    [None] or the empty string.  In every case the manager and the dict
    objects are left as they were. *)
Theorem validate_key_cases (w : World) (api_key scope : option string) :
  let r := validate_key env api_key scope w in
  let now := clock env (time_reads w) in
  (api_key = None \/ api_key = Some "" ->
     fst r = Return (false, Some MissingCredential)) /\
  (forall k, api_key = Some k -> k <> "" ->
     (record_of w (_hash_key env k) = None ->
        fst r = Return (false, Some UnknownCredential)) /\
     (forall ki, record_of w (_hash_key env k) = Some ki ->
        (now > expires_at ki -> fst r = Return (false, Some Expired)) /\
        (now <= expires_at ki ->
           (forall s, scope = Some s -> s <> "" ->
              s ∉ scopes ki -> "*" ∉ scopes ki ->
              fst r = Return (false, Some (ScopeDenied s))) /\
           (scope = None \/ scope = Some "" \/
            (exists s, scope = Some s /\ (s ∈ scopes ki \/ "*" ∈ scopes ki)) ->
              fst r = Return (true, None))))) /\
  api_key_manager (snd r) = api_key_manager w /\
  objects (snd r) = objects w.
Proof.
  intros r now. split; [| split].
  - intros [-> | ->]; reflexivity.
  - intros k -> Hk. subst r. unfold validate_key.
    apply truthy_Some in Hk. rewrite Hk. cbn [negb]. unfold record_of.
    run_monad. split.
    + intros ->. reflexivity.
    + intros ki ->. run_monad. fold now. split.
      * intros Hexp. replace (expires_at ki <? now) with true by (symmetry; lia).
        reflexivity.
      * intros Hlive. replace (expires_at ki <? now) with false by (symmetry; lia).
        split.
        -- intros s -> Hs Hnot Hstar.
           apply truthy_Some in Hs. apply py_in_false in Hnot, Hstar.
           rewrite Hs, Hnot, Hstar. reflexivity.
        -- intros [-> | [-> | [s [-> [Hin | Hin]]]]]; try reflexivity.
           ++ apply py_in_spec in Hin. rewrite Hin.
              rewrite andb_false_r. reflexivity.
           ++ apply py_in_spec in Hin. rewrite Hin.
              rewrite andb_false_r. reflexivity.
  - subst r. destruct (validate_key_world w api_key scope) as [-> | ->];
      split; reflexivity.
Qed.

End Validate.

Lemma validate_key_cases_witness :
  fst (validate_key demo_env (Some "") (Some "read") scoped) =
    Return (false, Some MissingCredential) /\
  fst (validate_key demo_env (Some "sk-1") (Some "read") scoped) =
    Return (false, Some UnknownCredential) /\
  fst (validate_key demo_env (Some "sk-0") (Some "write") scoped) =
    Return (false, Some (ScopeDenied "write")) /\
  fst (validate_key demo_env (Some "sk-0") (Some "read") scoped) =
    Return (true, None).
Proof.
  pose proof (validate_key_cases demo_env scoped (Some "") (Some "read")) as Hempty.
  pose proof (validate_key_cases demo_env scoped (Some "sk-1") (Some "read")) as Hunknown.
  pose proof (validate_key_cases demo_env scoped (Some "sk-0") (Some "write")) as Hwrite.
  pose proof (validate_key_cases demo_env scoped (Some "sk-0") (Some "read")) as Hread.
  cbv zeta in *. split; [| split; [| split]].
  - apply Hempty. right. reflexivity.
  - destruct Hunknown as [_ [H _]].
    destruct (H "sk-1" eq_refl ltac:(discriminate)) as [Hnone _].
    apply Hnone. vm_compute. reflexivity.
  - destruct Hwrite as [_ [H _]].
    destruct (H "sk-0" eq_refl ltac:(discriminate)) as [_ Hsome].
    destruct (Hsome scoped_record ltac:(vm_compute; reflexivity)) as [_ Hlive].
    destruct (Hlive ltac:(vm_compute; discriminate)) as [Hdenied _].
    apply (Hdenied "write" eq_refl); [discriminate | |];
      apply py_in_false; vm_compute; reflexivity.
  - destruct Hread as [_ [H _]].
    destruct (H "sk-0" eq_refl ltac:(discriminate)) as [_ Hsome].
    destruct (Hsome scoped_record ltac:(vm_compute; reflexivity)) as [_ Hlive].
    destruct (Hlive ltac:(vm_compute; discriminate)) as [_ Hok].
    apply Hok. right. right. exists "read". split; [reflexivity |].
    left. apply py_in_spec. vm_compute. reflexivity.
Defined.

(** The sentence of C3 fails for a scope that is given but empty: the code
    tests [if scope and ...], so [scope=""] is not checked against the
    record's scopes and the key validates. *)
Lemma validate_key_cases_counterexample :
  ~ (forall (env : Env) (w : World) (k s : string) ki,
       k <> "" ->
       record_of w (_hash_key env k) = Some ki ->
       clock env (time_reads w) <= expires_at ki ->
       s ∉ scopes ki -> "*" ∉ scopes ki ->
       fst (validate_key env (Some k) (Some s) w) =
         Return (false, Some (ScopeDenied s))).
Proof.
  intros Hclaim.
  specialize (Hclaim demo_env scoped "sk-0" "" scoped_record).
  assert (Hrun : fst (validate_key demo_env (Some "sk-0") (Some "") scoped) =
                 Return (true, None)) by (vm_compute; reflexivity).
  rewrite Hclaim in Hrun.
  - discriminate Hrun.
  - discriminate.
  - vm_compute. reflexivity.
  - vm_compute. discriminate.
  - apply py_in_false. vm_compute. reflexivity.
  - apply py_in_false. vm_compute. reflexivity.
Qed.

(** ** The gate *)

Lemma prefix_spec (p s : string) :
  String.prefix p s = true <-> exists t, s = p +:+ t.
Proof.
  revert s. induction p as [| a p IH]; intros s.
  - split; [intros _; exists s; reflexivity | destruct s; reflexivity].
  - destruct s as [| b s]; simpl.
    + split; [discriminate | intros [t Ht]; discriminate Ht].
    + destruct (Ascii.ascii_dec a b) as [<- | Hne].
      * rewrite IH. split; intros [t Ht]; exists t.
        -- rewrite Ht. reflexivity.
        -- change (String a s = String a (p +:+ t)) in Ht. congruence.
      * split; [discriminate |].
        intros [t Ht]. change (String b s = String a (p +:+ t)) in Ht. congruence.
Qed.

Lemma rejection_shape (m : option string) :
  dom (rejection m) = {[ "success"; "message" ]} /\
  rejection m !! "success" = Some (PyBool false) /\
  rejection m !! "message" = Some (of_optional_str m).
Proof.
  unfold rejection. split; [| split].
  - rewrite dom_insert_L, dom_singleton_L. reflexivity.
  - apply lookup_insert_eq.
  - rewrite lookup_insert_ne by discriminate. apply lookup_singleton_eq.
Qed.

Section GateFacts.

Variable env : Env.
Variable downstream : Request -> M Response.

(** A failed validation always names its reason. *)
Lemma validate_key_reason (w w' : World) api_key scope reason :
  validate_key env api_key scope w = (Return (false, reason), w') ->
  exists msg, reason = Some msg.
Proof.
  unfold validate_key. destruct api_key as [k |]; [| intros [= <- _]; eauto].
  destruct (negb (truthy (Some k))); [intros [= <- _]; eauto |]. run_monad.
  destruct (_ !! _) as [ki |]; [| intros [= <- _]; eauto]. run_monad.
  destruct (expires_at ki <? _); [intros [= <- _]; eauto |].
  destruct scope as [s |]; [| discriminate].
  destruct (_ && _); [intros [= <- _]; eauto | discriminate].
Qed.

(** C4.  For a request outside the allow-list: when validation fails the
    gate answers 401 with the body [{"success": False, "message": reason}]
    and the handler is not called; when validation succeeds and the rate
    check fails it answers 429 with a body of the same two fields and the
    handler is not called; when both succeed the handler is called and its
    response is returned as it is.  The body has exactly the two fields
    [success], which is [False], and [message]. *)
Theorem dispatch_gated (self : APIKeyMiddleware) (request : Request) (w : World) :
  let key := headers request !! header_name self in
  excluded self request = false ->
  (forall reason w1,
     validate_key env key None (ticked w) = (Return (false, reason), w1) ->
     (exists msg, reason = Some msg) /\
     run env downstream (dispatch self request) w =
       (Return (JSONResponse 401 (rejection reason)), w1,
        [validate_called key None])) /\
  (forall m k w1 reason w2,
     validate_key env key None (ticked w) = (Return (true, m), w1) ->
     key = Some k ->
     check_rate_limit env k w1 = (Return (false, reason), w2) ->
     run env downstream (dispatch self request) w =
       (Return (JSONResponse 429 (rejection reason)), w2,
        [validate_called key None; check_rate_limit_called key])) /\
  (forall m k w1 m' w2 response w3,
     validate_key env key None (ticked w) = (Return (true, m), w1) ->
     key = Some k ->
     check_rate_limit env k w1 = (Return (true, m'), w2) ->
     downstream request w2 = (Return response, w3) ->
     run env downstream (dispatch self request) w =
       (Return response, ticked w3,
        [validate_called key None; check_rate_limit_called key;
         handler_called request])) /\
  (forall reason,
     dom (rejection reason) = {[ "success"; "message" ]} /\
     rejection reason !! "success" = Some (PyBool false) /\
     rejection reason !! "message" = Some (of_optional_str reason)).
Proof.
  intros key Hout. unfold dispatch. rewrite Hout. fold key.
  split; [| split; [| split]].
  - intros reason w1 Hval. split; [exact (validate_key_reason _ _ _ _ _ Hval) |].
    cbn [run perform observe]. unfold time_time at 1. fold (ticked w).
    rewrite Hval. reflexivity.
  - intros m k w1 reason w2 Hval Hkey Hrate.
    cbn [run perform observe]. unfold time_time at 1. fold (ticked w).
    rewrite Hval. cbn [negb run perform observe]. rewrite Hkey. cbn [perform].
    rewrite Hrate. reflexivity.
  - intros m k w1 m' w2 response w3 Hval Hkey Hrate Hnext.
    cbn [run perform observe]. unfold time_time at 1. fold (ticked w).
    rewrite Hval. cbn [negb run perform observe]. rewrite Hkey. cbn [perform].
    rewrite Hrate. cbn [negb run perform observe]. rewrite Hnext. reflexivity.
  - exact rejection_shape.
Qed.

End GateFacts.

Lemma dispatch_gated_witness :
  run demo_env echo (dispatch gate anonymous_request) limited =
    (Return (JSONResponse 401 (rejection (Some MissingCredential))),
     ticked limited, [validate_called None None]) /\
  run demo_env echo (dispatch gate keyed_request) exhausted =
    (Return (JSONResponse 429 (rejection (Some RateLimitExceeded))),
     ticked (ticked (ticked exhausted)),
     [validate_called (Some "sk-0") None; check_rate_limit_called (Some "sk-0")]) /\
  (exists w', run demo_env echo (dispatch gate keyed_request) limited =
    (Return (StreamingResponse 200 ["/api/jobs"]), w',
     [validate_called (Some "sk-0") None; check_rate_limit_called (Some "sk-0");
      handler_called keyed_request])).
Proof.
  split; [| split].
  - destruct (dispatch_gated demo_env echo gate anonymous_request limited
                ltac:(vm_compute; reflexivity)) as [H401 _].
    destruct (H401 (Some MissingCredential) (ticked limited)
                ltac:(vm_compute; reflexivity)) as [_ Hrun].
    exact Hrun.
  - destruct (dispatch_gated demo_env echo gate keyed_request exhausted
                ltac:(vm_compute; reflexivity)) as [_ [H429 _]].
    apply (H429 None "sk-0" (ticked (ticked exhausted))).
    + vm_compute. reflexivity.
    + vm_compute. reflexivity.
    + vm_compute. reflexivity.
  - destruct (dispatch_gated demo_env echo gate keyed_request limited
                ltac:(vm_compute; reflexivity)) as [_ [_ [Hpass _]]].
    eexists.
    apply (Hpass None "sk-0" (ticked (ticked limited)) None
                 (snd (check_rate_limit demo_env "sk-0" (ticked (ticked limited))))).
    + vm_compute. reflexivity.
    + vm_compute. reflexivity.
    + vm_compute. reflexivity.
    + reflexivity.
Defined.

Section AllowList.

Variable env : Env.
Variable downstream : Request -> M Response.

(** C5.  A request is excluded exactly when its path starts with an entry
    of [exclude_paths].  An excluded request goes straight to the handler:
    the only call [dispatch] makes is [call_next], whatever the headers, so
    neither [validate_key] nor [check_rate_limit] runs.  For a request that
    is not excluded, [validate_key] is called on the header value, and
    [check_rate_limit] is called next when the validation succeeds. *)
Theorem dispatch_allow_list (self : APIKeyMiddleware) (request : Request) :
  let key := headers request !! header_name self in
  (excluded self request = true <->
     exists p t, p ∈ exclude_paths self /\ url_path request = p +:+ t) /\
  (excluded self request = true ->
     dispatch self request = Do (call_next request) Done /\
     forall w, run env downstream (dispatch self request) w =
                 (fst (downstream request w), snd (downstream request w),
                  [handler_called request])) /\
  (excluded self request = false ->
     forall w, exists o w' evs,
       run env downstream (dispatch self request) w =
         (o, w', validate_called key None :: evs) /\
       (forall m w1,
          validate_key env key None (ticked w) = (Return (true, m), w1) ->
          exists evs', evs = check_rate_limit_called key :: evs')).
Proof.
  intros key. split; [| split].
  - unfold excluded. rewrite existsb_exists. split.
    + intros [p [Hin Hpre]]. apply prefix_spec in Hpre as [t Ht].
      exists p, t. split; [apply list_elem_of_In; exact Hin | exact Ht].
    + intros [p [t [Hin Ht]]]. exists p.
      split; [apply list_elem_of_In; exact Hin |].
      apply prefix_spec. exists t. exact Ht.
  - intros Hin. unfold dispatch. rewrite Hin. split; [reflexivity |].
    intros w. cbn [run perform observe].
    destruct (downstream request w) as [[response | e] w']; reflexivity.
  - intros Hout w. unfold dispatch. rewrite Hout. fold key.
    cbn [run observe].
    change (perform env downstream call_time w)
      with (Return (clock env (time_reads w)), ticked w).
    cbn [run observe].
    change (perform env downstream (call_validate_key key None))
      with (validate_key env key None).
    destruct (validate_key env key None (ticked w)) as [[[valid m] | e] w1].
    + destruct valid; cbn [negb run observe].
      * destruct (perform env downstream (call_check_rate_limit key) w1)
          as [[[allowed m'] | e] w2].
        -- destruct allowed; cbn [negb run observe].
           ++ change (perform env downstream (call_next request))
                with (downstream request).
              destruct (downstream request w2) as [[response | e] w3];
                do 3 eexists; (split; [reflexivity |]); intros; eexists; reflexivity.
           ++ do 3 eexists. split; [reflexivity |]. intros. eexists. reflexivity.
        -- do 3 eexists. split; [reflexivity |]. intros. eexists. reflexivity.
      * do 3 eexists. split; [reflexivity |]. intros ? ? [=].
    + do 3 eexists. split; [reflexivity |]. intros ? ? [=].
Qed.

End AllowList.

Lemma dispatch_allow_list_witness :
  dispatch gate health_request = Do (call_next health_request) Done /\
  run demo_env echo (dispatch gate health_request) limited =
    (Return (StreamingResponse 200 ["/health/live"]), limited,
     [handler_called health_request]) /\
  (exists o w' evs,
     run demo_env echo (dispatch gate anonymous_request) limited =
       (o, w', validate_called None None :: evs)).
Proof.
  destruct (dispatch_allow_list demo_env echo gate health_request) as [_ [Hin _]].
  destruct (Hin ltac:(vm_compute; reflexivity)) as [Hprog Hrun].
  destruct (dispatch_allow_list demo_env echo gate anonymous_request) as [_ [_ Hout]].
  destruct (Hout ltac:(vm_compute; reflexivity) limited) as [o [w' [evs [Hgated _]]]].
  split; [exact Hprog | split; [exact (Hrun limited) |]].
  exists o, w', evs. exact Hgated.
Defined.

(** ** Revocation *)

Section Revoke.

Variable env : Env.

Lemma revoke_key_known (w : World) (api_key : string) ki :
  record_of w (_hash_key env api_key) = Some ki ->
  revoke_key env api_key w = (Return true, revoked (_hash_key env api_key) w).
Proof.
  unfold record_of, revoke_key, revoked. intros Hk. run_monad. rewrite Hk. run_monad.
  destruct (_request_tracker (api_key_manager w) !! _hash_key env api_key) eqn:Ht.
  - reflexivity.
  - rewrite (delete_id _ _ Ht). reflexivity.
Qed.

Lemma revoke_key_unknown (w : World) (api_key : string) :
  record_of w (_hash_key env api_key) = None ->
  revoke_key env api_key w = (Return false, w).
Proof.
  unfold record_of, revoke_key. intros Hk. run_monad. rewrite Hk. reflexivity.
Qed.

(** C6, as the code has it.  [revoke_key] returns [True] exactly when a
    record existed for the digest; afterwards the digest has no record, and
    no tracker either when a record existed; without a record nothing
    changes.  Entries of other digests are untouched.  A [validate_key] of
    the same credential right after fails with ["Invalid API key"] when the
    credential is not the empty string (and with ["API key is required"]
    when it is).  A second [revoke_key] returns [False] and changes
    nothing. *)
Theorem revoke_key_removes (w : World) (api_key : string) :
  let h := _hash_key env api_key in
  let r := revoke_key env api_key w in
  (exists b, fst r = Return b /\ (b = true <-> is_Some (record_of w h))) /\
  record_of (snd r) h = None /\
  (is_Some (record_of w h) -> tracker_of (snd r) h = None) /\
  (record_of w h = None -> snd r = w) /\
  (forall h', h' <> h ->
     record_of (snd r) h' = record_of w h' /\
     tracker_of (snd r) h' = tracker_of w h') /\
  (api_key <> "" -> forall scope,
     fst (validate_key env (Some api_key) scope (snd r)) =
       Return (false, Some UnknownCredential)) /\
  (api_key = "" -> forall scope,
     fst (validate_key env (Some api_key) scope (snd r)) =
       Return (false, Some MissingCredential)) /\
  revoke_key env api_key (snd r) = (Return false, snd r).
Proof.
  intros h r.
  assert (Hgone : record_of (snd r) h = None).
  { subst r. destruct (record_of w h) as [ki |] eqn:Hk.
    - rewrite (revoke_key_known w api_key ki Hk). unfold record_of, revoked.
      run_monad. apply lookup_delete_eq.
    - rewrite (revoke_key_unknown w api_key Hk). exact Hk. }
  split; [| split; [exact Hgone | split; [| split; [| split; [| split; [| split]]]]]].
  - subst r. destruct (record_of w h) as [ki |] eqn:Hk.
    + rewrite (revoke_key_known w api_key ki Hk). exists true.
      split; [reflexivity |]. split; [eauto | reflexivity].
    + rewrite (revoke_key_unknown w api_key Hk). exists false.
      split; [reflexivity |]. split; [discriminate | intros [ki Hki]; discriminate].
  - intros [ki Hk]. subst r. rewrite (revoke_key_known w api_key ki Hk).
    unfold tracker_of, revoked. run_monad. apply lookup_delete_eq.
  - intros Hk. subst r. rewrite (revoke_key_unknown w api_key Hk). reflexivity.
  - intros h' Hne. subst r. destruct (record_of w h) as [ki |] eqn:Hk.
    + rewrite (revoke_key_known w api_key ki Hk).
      unfold record_of, tracker_of, revoked. run_monad.
      rewrite !lookup_delete_ne by (intros Heq; apply Hne; symmetry; exact Heq).
      split; reflexivity.
    + rewrite (revoke_key_unknown w api_key Hk). split; reflexivity.
  - intros Hne scope. apply validate_key_no_record; assumption.
  - intros -> scope. reflexivity.
  - apply revoke_key_unknown. exact Hgone.
Qed.

End Revoke.

Lemma revoke_key_removes_witness :
  tracker_of (snd (revoke_key demo_env "sk-0" exhausted)) "sk-0" = None /\
  snd (revoke_key demo_env "sk-1" exhausted) = exhausted /\
  fst (validate_key demo_env (Some "sk-0") None
         (snd (revoke_key demo_env "sk-0" exhausted))) =
    Return (false, Some UnknownCredential) /\
  fst (validate_key demo_env (Some "") None
         (snd (revoke_key demo_env "" exhausted))) =
    Return (false, Some MissingCredential).
Proof.
  pose proof (revoke_key_removes demo_env exhausted "sk-0") as Hissued.
  pose proof (revoke_key_removes demo_env exhausted "sk-1") as Hstranger.
  pose proof (revoke_key_removes demo_env exhausted "") as Hempty.
  cbv zeta in *.
  destruct Hissued as [_ [_ [Htracker [_ [_ [Hvalidate _]]]]]].
  destruct Hstranger as [_ [_ [_ [Hsame _]]]].
  destruct Hempty as [_ [_ [_ [_ [_ [_ [Hmissing _]]]]]]].
  split; [| split; [| split]].
  - apply Htracker. exists limited_record. vm_compute. reflexivity.
  - apply Hsame. vm_compute. reflexivity.
  - apply Hvalidate. discriminate.
  - apply Hmissing. reflexivity.
Defined.

(** The sentence of C6 fails for the empty credential, even when it is a
    stored one (the configured default): [revoke_key] returns [True], and
    the validation that follows fails with ["API key is required"], not
    with ["Invalid API key"]. *)
Lemma revoke_key_removes_counterexample :
  fst (revoke_key blank_env "" blank_booted) = Return true /\
  fst (validate_key blank_env (Some "") None
         (snd (revoke_key blank_env "" blank_booted))) <>
    Return (false, Some UnknownCredential).
Proof.
  split.
  - vm_compute. reflexivity.
  - vm_compute. discriminate.
Qed.

(** ** Update *)

Lemma float_add_int_run (t n : Z) (w : World) :
  float_add_int t n w =
    if overflows n then (Raise OverflowError, w) else (Return (t + n), w).
Proof. unfold float_add_int. destruct (overflows n); reflexivity. Qed.

(** Where the float sum is exact the conversion does not overflow. *)
Lemma float_exact_no_overflow (t n : Z) : float_exact t n -> overflows n = false.
Proof.
  intros [_ [Hn _]]. unfold overflows.
  assert (Hgap : 2 ^ 53 < DBL_OVERFLOW) by (vm_compute; reflexivity).
  revert Hn Hgap. generalize (2 ^ 53) DBL_OVERFLOW (Z.abs n). intros B D a Hn Hgap.
  lia.
Qed.

Section Update.

Variable env : Env.

(** The world that [update_key] leaves when the record exists, spelled out:
    the scopes and the rate limit are stored before the sum for the expiry
    is computed, the expiry and the metadata after it. *)
Lemma update_key_run (w : World) (api_key : string) sc rl days md ki :
  record_of w (_hash_key env api_key) = Some ki ->
  update_key env api_key sc rl days md w =
    let h := _hash_key env api_key in
    let stored expires :=
      with_api_keys
        (insert h (KeyInfo (default (scopes ki) sc) (default (rate_limit ki) rl)
                     (created_at ki) expires (metadata ki)))
        (api_key_manager w) in
    let merged :=
      match md with
      | Some other => alter (fun d => other ∪ d) (metadata ki) (objects w)
      | None => objects w
      end in
    match days with
    | Some d =>
        if overflows (d * 24 * 3600)
        then (Raise OverflowError,
              MkWorld (stored (expires_at ki)) (objects w) (S (time_reads w))
                      (uuid_draws w))
        else (Return true,
              MkWorld (stored (clock env (time_reads w) + d * 24 * 3600)) merged
                      (S (time_reads w)) (uuid_draws w))
    | None =>
        (Return true,
         MkWorld (stored (expires_at ki)) merged (time_reads w) (uuid_draws w))
    end.
Proof.
  unfold record_of. intros Hk. unfold update_key. run_monad. rewrite Hk.
  destruct sc as [sc |], rl as [rl |], days as [d |], md as [other |];
    run_monad; repeat (rewrite ?Hk, ?lookup_insert_eq; run_monad);
    rewrite ?float_add_int_run; cbv zeta;
    try destruct (overflows (d * 24 * 3600));
    run_monad; repeat (rewrite ?Hk, ?lookup_insert_eq; run_monad);
    cbn [scopes rate_limit created_at expires_at metadata default from_option id];
    rewrite ?insert_insert_eq.
  all: try reflexivity.
  all: rewrite insert_id by (destruct ki; exact Hk).
  all: destruct w as [[] ? ? ?]; reflexivity.
Qed.

(** C7, as the code has it.  [update_key] returns [False] and changes
    nothing when the digest has no record.  Otherwise, when the number of
    days, if one is given, is small enough for the float sum
    [now + days * 24 * 3600] to be exact, it returns [True]; in the record,
    [scopes], [rate_limit] and [expires_at] change only when the
    corresponding argument is given, [expires_at] becoming
    [now + days * 24 * 3600]; [created_at] and the identity of the metadata
    dict stay; the metadata dict is updated in place with the given mapping
    (old keys kept, given keys override) and no other object changes; other
    records and all trackers are untouched.  Hence two updates with
    [{"a": 1}] and then [{"b": 2}] leave both keys in the metadata. *)
Theorem update_key_fields (w : World) (api_key : string)
    (new_scopes : option (list string)) (new_rate_limit expires_in_days : option Z)
    (new_metadata : option (gmap string pyval)) :
  let h := _hash_key env api_key in
  let now := clock env (time_reads w) in
  let r := update_key env api_key new_scopes new_rate_limit expires_in_days
             new_metadata w in
  (record_of w h = None -> r = (Return false, w)) /\
  (forall ki, record_of w h = Some ki ->
     (forall days, expires_in_days = Some days ->
        float_exact now (days * 24 * 3600)) ->
     fst r = Return true /\
     record_of (snd r) h =
       Some (KeyInfo (default (scopes ki) new_scopes)
                     (default (rate_limit ki) new_rate_limit)
                     (created_at ki)
                     (match expires_in_days with
                      | Some days => now + days * 24 * 3600
                      | None => expires_at ki
                      end)
                     (metadata ki)) /\
     (forall h', h' <> h -> record_of (snd r) h' = record_of w h') /\
     _request_tracker (api_key_manager (snd r)) = _request_tracker (api_key_manager w) /\
     (forall l, l <> metadata ki -> objects (snd r) !! l = objects w !! l) /\
     (new_metadata = None -> objects (snd r) = objects w) /\
     (forall other d, new_metadata = Some other ->
        objects w !! metadata ki = Some d ->
        exists d', objects (snd r) !! metadata ki = Some d' /\
          forall key, d' !! key = match other !! key with
                                  | Some v => Some v
                                  | None => d !! key
                                  end)) /\
  (forall ki d, record_of w h = Some ki -> objects w !! metadata ki = Some d ->
     let w1 := snd (update_key env api_key None None None
                      (Some {[ "a" := PyInt 1 ]}) w) in
     let w2 := snd (update_key env api_key None None None
                      (Some {[ "b" := PyInt 2 ]}) w1) in
     exists d2, objects w2 !! metadata ki = Some d2 /\
       d2 !! "a" = Some (PyInt 1) /\ d2 !! "b" = Some (PyInt 2) /\
       forall key, key <> "a" -> key <> "b" -> d2 !! key = d !! key).
Proof.
  intros h now r. split; [| split].
  - unfold record_of. intros Hk. subst r. unfold update_key. run_monad.
    fold h. rewrite Hk. reflexivity.
  - intros ki Hk Hexact. subst r.
    rewrite (update_key_run w api_key new_scopes new_rate_limit expires_in_days
               new_metadata ki Hk). cbv zeta. fold h now.
    destruct expires_in_days as [days |];
      [rewrite (float_exact_no_overflow now (days * 24 * 3600)
                  (Hexact days eq_refl)) |];
      cbn [fst snd]; unfold record_of, with_api_keys;
      cbn [api_key_manager _api_keys _request_tracker objects].
    all: split; [reflexivity |].
    all: split; [apply lookup_insert_eq |].
    all: split;
      [intros h' Hne; apply lookup_insert_ne; intros Heq; apply Hne;
       symmetry; exact Heq |].
    all: split; [reflexivity |].
    all: split;
      [intros l Hl; destruct new_metadata;
       [apply lookup_alter_ne; intros Heq; apply Hl; symmetry; exact Heq
       | reflexivity] |].
    all: split; [intros ->; reflexivity |].
    all: intros other d -> Hd; exists (other ∪ d).
    all: split; [rewrite lookup_alter_eq, Hd; reflexivity |].
    all: intros key; rewrite lookup_union; destruct (other !! key), (d !! key);
      reflexivity.
  - unfold record_of. intros ki d Hk Hd.
    unfold update_key. run_monad. fold h. repeat (rewrite Hk; run_monad).
    exists ({[ "b" := PyInt 2 ]} ∪ ({[ "a" := PyInt 1 ]} ∪ d)).
    split; [| split; [| split]].
    + rewrite !lookup_alter_eq, Hd. reflexivity.
    + rewrite lookup_union, lookup_singleton_ne by discriminate.
      rewrite lookup_union, lookup_singleton_eq.
      destruct (d !! "a"); reflexivity.
    + rewrite lookup_union, lookup_singleton_eq.
      destruct (_ !! "b"); reflexivity.
    + intros key Ha Hb.
      rewrite lookup_union, lookup_singleton_ne by congruence.
      rewrite lookup_union, lookup_singleton_ne by congruence.
      destruct (d !! key); reflexivity.
Qed.

End Update.

Lemma update_key_fields_witness :
  update_key demo_env "sk-1" None (Some 5) (Some 1) None limited =
    (Return false, limited) /\
  record_of (snd (update_key demo_env "sk-0" None (Some 5) (Some 1) None limited))
    "sk-0" = Some (KeyInfo ["*"] 5 2 86404 2) /\
  (exists d2,
     objects (snd (update_key demo_env "sk-0" None None None
                     (Some {[ "b" := PyInt 2 ]})
                     (snd (update_key demo_env "sk-0" None None None
                             (Some {[ "a" := PyInt 1 ]}) limited))))
       !! 2%positive = Some d2 /\
     d2 !! "a" = Some (PyInt 1) /\ d2 !! "b" = Some (PyInt 2)).
Proof.
  destruct (update_key_fields demo_env limited "sk-1" None (Some 5) (Some 1) None)
    as [Hnone _].
  destruct (update_key_fields demo_env limited "sk-0" None (Some 5) (Some 1) None)
    as [_ [Hsome Hmerge]].
  destruct (Hsome limited_record ltac:(vm_compute; reflexivity)) as [_ [Hrecord _]].
  { intros days [= <-]. vm_compute. repeat split; discriminate. }
  destruct (Hmerge limited_record ∅ ltac:(vm_compute; reflexivity)
              ltac:(vm_compute; reflexivity)) as [d2 [Hd2 [Ha [Hb _]]]].
  split; [| split].
  - apply Hnone. vm_compute. reflexivity.
  - exact Hrecord.
  - exists d2. split; [exact Hd2 | split; [exact Ha | exact Hb]].
Defined.

(** The sentence of C7 fails when the number of days is too large to be
    converted to a float: the sum for the expiry raises [OverflowError], so
    the call does not return [True], and the scopes it was given are
    already stored while the expiry is not. *)
Lemma update_key_fields_counterexample :
  fst (update_key demo_env "sk-0" (Some ["read"]) None (Some (10 ^ 400)) None
         limited) = Raise OverflowError /\
  record_of (snd (update_key demo_env "sk-0" (Some ["read"]) None
                    (Some (10 ^ 400)) None limited)) "sk-0" =
    Some (KeyInfo ["read"] 3 2 7776003 2).
Proof.
  split; vm_compute; reflexivity.
Qed.

(** ** No exception for the five error conditions *)

Section NoRaise.

Variable env : Env.

(** C8.  [validate_key] returns a pair on every input: [(True, None)], or
    [False] with one of the four validation messages.  [check_rate_limit]
    returns a pair whenever a record exists for the digest: [(True, None)]
    or [(False, "API rate limit exceeded")].  Neither raises. *)
Theorem manager_returns_pairs (w : World) :
  (forall api_key scope, exists ok reason w',
     validate_key env api_key scope w = (Return (ok, reason), w') /\
     (ok = true /\ reason = None \/
      ok = false /\
      (reason = Some MissingCredential \/ reason = Some UnknownCredential \/
       reason = Some Expired \/
       exists s, scope = Some s /\ reason = Some (ScopeDenied s)))) /\
  (forall api_key, is_Some (record_of w (_hash_key env api_key)) ->
     exists ok reason w',
       check_rate_limit env api_key w = (Return (ok, reason), w') /\
       (ok = true /\ reason = None \/
        ok = false /\ reason = Some RateLimitExceeded)).
Proof.
  split.
  - intros api_key scope. unfold validate_key.
    destruct api_key as [k |]; [| do 3 eexists; split; [reflexivity | eauto 6]].
    destruct (negb (truthy (Some k))); [do 3 eexists; split; [reflexivity | eauto 6] |].
    run_monad.
    destruct (_ !! _) as [ki |]; [| do 3 eexists; split; [reflexivity | eauto 6]].
    run_monad.
    destruct (expires_at ki <? _); [do 3 eexists; split; [reflexivity | eauto 6] |].
    destruct scope as [s |]; [| do 3 eexists; split; [reflexivity | eauto]].
    destruct (_ && _); do 3 eexists; (split; [reflexivity |]); eauto 10.
  - intros api_key [ki Hk].
    destruct (tracker_of w (_hash_key env api_key)) as [tr |] eqn:Ht.
    + rewrite (check_rate_limit_known env w api_key ki tr Hk Ht). cbv zeta.
      destruct (requests _ >=? rate_limit ki);
        do 3 eexists; (split; [reflexivity |]); eauto.
    + rewrite (check_rate_limit_first env w api_key Ht).
      rewrite (check_rate_limit_known env
                 (tracked (_hash_key env api_key)
                    (Tracker 0 (clock env (time_reads w))) (ticked w))
                 api_key ki (Tracker 0 (clock env (time_reads w))) Hk
                 (tracker_of_tracked _ _ _)).
      cbv zeta.
      destruct (requests _ >=? rate_limit ki);
        do 3 eexists; (split; [reflexivity |]); eauto.
Qed.

End NoRaise.

Lemma manager_returns_pairs_witness :
  exists ok reason w',
    check_rate_limit demo_env "sk-0" limited = (Return (ok, reason), w') /\
    (ok = true /\ reason = None \/ ok = false /\ reason = Some RateLimitExceeded).
Proof.
  destruct (manager_returns_pairs demo_env limited) as [_ Hcheck].
  apply Hcheck. exists limited_record. vm_compute. reflexivity.
Defined.

(** ** A rate check without a record *)

Section Unknown.

Variable env : Env.

(** C10, as the code has it.  When the digest has no record,
    [check_rate_limit] raises [KeyError].  If the digest has no tracker
    either, a tracker [requests = 0, window_start = now] has been stored for
    it by then; if it already has a tracker, nothing is stored and the
    clock is not even read.  Either way the digest has a tracker and no
    record afterwards. *)
Theorem check_rate_limit_without_record (w : World) (api_key : string) :
  let h := _hash_key env api_key in
  let now := clock env (time_reads w) in
  record_of w h = None ->
  (tracker_of w h = None ->
     check_rate_limit env api_key w =
       (Raise (KeyError h), tracked h (Tracker 0 now) (ticked w))) /\
  (forall tr, tracker_of w h = Some tr ->
     check_rate_limit env api_key w = (Raise (KeyError h), w)) /\
  is_Some (tracker_of (snd (check_rate_limit env api_key w)) h) /\
  record_of (snd (check_rate_limit env api_key w)) h = None.
Proof.
  intros h now Hk.
  pose proof (check_rate_limit_no_record_fresh env w api_key Hk) as Hfresh.
  pose proof (fun tr => check_rate_limit_no_record_tracked env w api_key tr Hk)
    as Hold.
  fold h now in Hfresh, Hold.
  split; [exact Hfresh | split; [exact Hold |]].
  destruct (tracker_of w h) as [tr |] eqn:Ht.
  - rewrite (Hold tr eq_refl). cbn [snd]. split; [rewrite Ht; eauto | exact Hk].
  - rewrite (Hfresh eq_refl). cbn [snd]. split; [| exact Hk].
    rewrite tracker_of_tracked. eauto.
Qed.

End Unknown.

Lemma check_rate_limit_without_record_witness :
  check_rate_limit demo_env "sk-9" booted =
    (Raise (KeyError "sk-9"), tracked "sk-9" (Tracker 0 2) (ticked booted)) /\
  check_rate_limit demo_env "sk-9" stray = (Raise (KeyError "sk-9"), stray).
Proof.
  destruct (check_rate_limit_without_record demo_env booted "sk-9"
              ltac:(vm_compute; reflexivity)) as [Hfresh _].
  destruct (check_rate_limit_without_record demo_env stray "sk-9"
              ltac:(vm_compute; reflexivity)) as [_ [Hold _]].
  split.
  - apply Hfresh. vm_compute. reflexivity.
  - apply (Hold (Tracker 0 2)). vm_compute. reflexivity.
Defined.

(** The sentence of C10 fails on the second rate check of a credential that
    was never issued: its tracker dates from the first check, nothing is
    inserted, and [window_start] is not the present time. *)
Lemma check_rate_limit_without_record_counterexample :
  ~ (forall (env : Env) (w : World) (api_key : string),
       record_of w (_hash_key env api_key) = None ->
       exists w', check_rate_limit env api_key w =
                    (Raise (KeyError (_hash_key env api_key)), w') /\
                  tracker_of w' (_hash_key env api_key) =
                    Some (Tracker 0 (clock env (time_reads w)))).
Proof.
  intros Hclaim.
  destruct (Hclaim demo_env stray "sk-9" ltac:(vm_compute; reflexivity))
    as [w' [Hrun Htracker]].
  assert (Hstray : check_rate_limit demo_env "sk-9" stray =
                     (Raise (KeyError "sk-9"), stray)) by (vm_compute; reflexivity).
  rewrite Hstray in Hrun. injection Hrun as <-.
  vm_compute in Htracker. discriminate Htracker.
Qed.

(** ** Lifetimes of the records *)

Section Lifetimes.

Variable env : Env.

Hypothesis clock_monotone : monotone_clock env.

(** A call preserves [records_sound] when it does not rewind the count of
    clock readings and every record it leaves is an old one or a sound
    one. *)
Lemma records_sound_step (w w' : World) :
  records_sound env w ->
  (time_reads w <= time_reads w')%nat ->
  (forall h ki, record_of w' h = Some ki ->
     record_of w h = Some ki \/
     (created_at ki < expires_at ki /\
      forall n : nat, (time_reads w' <= n)%nat -> created_at ki <= clock env n)) ->
  records_sound env w'.
Proof.
  intros Hw Hreads Hrec h ki Hk.
  destruct (Hrec h ki Hk) as [Hold | Hnew]; [| exact Hnew].
  destruct (Hw h ki Hold) as [Hlife Hpast]. split; [exact Hlife |].
  intros n Hn. apply Hpast. lia.
Qed.

(** A record written with [created_at] read at tick [t] and [expires_at]
    computed from the next reading and a positive duration. *)
Lemma issued_record_sound (t : nat) (seconds : Z) sc rl md :
  0 < seconds ->
  let ki := KeyInfo sc rl (clock env t) (clock env (S t) + seconds) md in
  created_at ki < expires_at ki /\
  forall n : nat, (S (S t) <= n)%nat -> created_at ki <= clock env n.
Proof.
  intros Hpos ki. cbn [ki created_at expires_at]. split.
  - pose proof (clock_monotone t (S t) ltac:(lia)). lia.
  - intros n Hn. apply clock_monotone. lia.
Qed.

Lemma load_default_sound (w : World) :
  records_sound env w -> records_sound env (snd (_load_default_api_key env w)).
Proof.
  intros Hw. unfold _load_default_api_key. run_monad.
  destruct (_api_keys (api_key_manager w) !! _) eqn:Hk; [exact Hw |].
  run_monad. apply (records_sound_step w); [exact Hw | cbn; lia |].
  intros h ki. unfold record_of. run_monad. rewrite lookup_insert.
  case_decide as Hh.
  - intros [= <-]. right.
    apply (issued_record_sound (time_reads w) (365 * 24 * 3600)). lia.
  - intros Hold. left. exact Hold.
Qed.

Lemma generate_key_sound (w : World) sc rl days md :
  0 < days ->
  records_sound env w -> records_sound env (snd (generate_key env sc rl days md w)).
Proof.
  intros Hdays Hw. unfold generate_key. run_monad.
  destruct md as [l |]; run_monad.
  all: rewrite float_add_int_run; destruct (overflows (days * 24 * 3600)); run_monad.
  all: apply (records_sound_step w); [exact Hw | cbn; lia |].
  all: intros h ki; unfold record_of; run_monad.
  all: try (intros Hold; left; exact Hold).
  all: rewrite lookup_insert.
  all: case_decide as Hh; [| intros Hold; left; exact Hold].
  all: intros [= <-]; right.
  all: apply (issued_record_sound (time_reads w) (days * 24 * 3600)); lia.
Qed.

Lemma update_key_sound (w : World) api_key sc rl days md :
  match days with Some d => 0 < d | None => True end ->
  records_sound env w ->
  records_sound env (snd (update_key env api_key sc rl days md w)).
Proof.
  intros Hdays Hw.
  destruct (record_of w (_hash_key env api_key)) as [ki |] eqn:Hk.
  - destruct (Hw _ ki Hk) as [Hlife Hpast].
    pose proof (Hpast (time_reads w) ltac:(lia)) as Hnow.
    rewrite (update_key_run env w api_key sc rl days md ki Hk). cbv zeta.
    destruct days as [d |]; [destruct (overflows (d * 24 * 3600)) |]; cbn [snd].
    all: apply (records_sound_step w); [exact Hw | cbn; lia |].
    all: intros h ki'; unfold record_of, with_api_keys;
      cbn [api_key_manager _api_keys time_reads]; rewrite lookup_insert.
    all: case_decide as Hh; [| intros Hold; left; exact Hold].
    all: intros [= <-]; right; cbn [created_at expires_at].
    all: split; [lia |].
    all: intros n Hn; apply Hpast; lia.
  - unfold record_of in Hk. unfold update_key. run_monad. rewrite Hk. exact Hw.
Qed.

Lemma validate_key_sound (w : World) api_key scope :
  records_sound env w -> records_sound env (snd (validate_key env api_key scope w)).
Proof.
  intros Hw. destruct (validate_key_world env w api_key scope) as [-> | ->];
    [exact Hw |].
  apply (records_sound_step w); [exact Hw | cbn; lia |].
  intros h ki Hk. left. exact Hk.
Qed.

Lemma check_rate_limit_sound (w : World) api_key :
  records_sound env w -> records_sound env (snd (check_rate_limit env api_key w)).
Proof.
  intros Hw.
  assert (Hkeep : _api_keys (api_key_manager (snd (check_rate_limit env api_key w))) =
                  _api_keys (api_key_manager w) /\
                  (time_reads w <= time_reads (snd (check_rate_limit env api_key w)))%nat).
  { destruct (record_of w (_hash_key env api_key)) as [ki |] eqn:Hk,
             (tracker_of w (_hash_key env api_key)) as [tr |] eqn:Ht.
    - rewrite (check_rate_limit_known env w api_key ki tr Hk Ht). cbv zeta.
      destruct (_ >? _), (_ >=? _); cbn; split; (reflexivity || lia).
    - rewrite (check_rate_limit_first env w api_key Ht).
      rewrite (check_rate_limit_known env
                 (tracked (_hash_key env api_key)
                    (Tracker 0 (clock env (time_reads w))) (ticked w))
                 api_key ki (Tracker 0 (clock env (time_reads w))) Hk
                 (tracker_of_tracked _ _ _)).
      cbv zeta. destruct (_ >? _), (_ >=? _); cbn; split; (reflexivity || lia).
    - rewrite (check_rate_limit_no_record_tracked env w api_key tr Hk Ht).
      cbn. split; (reflexivity || lia).
    - rewrite (check_rate_limit_no_record_fresh env w api_key Hk Ht).
      cbn. split; (reflexivity || lia). }
  destruct Hkeep as [Hkeys Hreads].
  apply (records_sound_step w); [exact Hw | exact Hreads |].
  intros h ki Hk. left. unfold record_of in *. rewrite <- Hkeys. exact Hk.
Qed.

Lemma revoke_key_sound (w : World) api_key :
  records_sound env w -> records_sound env (snd (revoke_key env api_key w)).
Proof.
  intros Hw. destruct (record_of w (_hash_key env api_key)) as [ki |] eqn:Hk.
  - rewrite (revoke_key_known env w api_key ki Hk). cbn [snd].
    apply (records_sound_step w); [exact Hw | cbn; lia |].
    intros h ki'. unfold record_of, revoked. run_monad.
    rewrite lookup_delete. case_decide; [discriminate | intros Hold; left; exact Hold].
  - rewrite (revoke_key_unknown env w api_key Hk). exact Hw.
Qed.

Lemma perform_op_sound (o : op) (w : World) :
  positive_days o -> records_sound env w -> records_sound env (perform_op env o w).
Proof.
  destruct o; cbn [perform_op positive_days]; intros Hdays Hw.
  - apply load_default_sound. exact Hw.
  - apply generate_key_sound; assumption.
  - apply update_key_sound; assumption.
  - apply validate_key_sound. exact Hw.
  - apply check_rate_limit_sound. exact Hw.
  - apply revoke_key_sound. exact Hw.
Qed.

Lemma init_sound (w0 : World) :
  records_sound env (snd (APIKeyManager__init__ env w0)).
Proof.
  unfold APIKeyManager__init__. unfold bind at 1. unfold modify at 1.
  apply load_default_sound.
  intros h ki. unfold record_of, with_manager. cbn. rewrite lookup_empty.
  discriminate.
Qed.

(** C9, as the code has it.  When the clock never goes back and every
    number of days passed to [generate_key] and [update_key] is strictly
    positive, every record in the store has [expires_at > created_at] after
    any sequence of calls that follows the creation of the manager. *)
Theorem lifetimes_stay_positive (ops : list op) (w0 : World) :
  Forall positive_days ops ->
  lifetimes_positive (after env ops w0).
Proof.
  intros Hdays.
  assert (Hsound : records_sound env (after env ops w0)).
  { unfold after. generalize (init_sound w0).
    generalize (snd (APIKeyManager__init__ env w0)).
    induction Hdays as [| o ops Ho Hops IH]; intros w Hw.
    - exact Hw.
    - cbn [fold_left]. apply IH. apply perform_op_sound; assumption. }
  intros h ki Hk. apply (Hsound h ki Hk).
Qed.

End Lifetimes.

Lemma lifetimes_stay_positive_witness :
  lifetimes_positive
    (after demo_env
       [op_generate None (Some 3) 90 None;
        op_update "sk-0" None None (Some 1) (Some {[ "a" := PyInt 1 ]});
        op_check_rate_limit "sk-0";
        op_load_default]
       start).
Proof.
  apply lifetimes_stay_positive.
  - intros i j Hij. cbn [demo_env clock]. lia.
  - repeat constructor; cbn [positive_days]; lia.
Defined.

(** The sentence of C9 fails when a key is issued with a number of days
    that is not positive: with [expires_in_days = -1] and a clock that
    advances, the record expires before it was created. *)
Lemma lifetimes_stay_positive_counterexample :
  ~ (forall (env : Env) (ops : list op) (w0 : World),
       Forall issues_or_updates ops -> lifetimes_positive (after env ops w0)).
Proof.
  intros Hclaim.
  pose proof (Hclaim demo_env [op_generate None None (-1) None] start
                ltac:(repeat constructor)
                "sk-0" (KeyInfo ["*"] 1000 2 (-86397) 2)
                ltac:(vm_compute; reflexivity)) as Hlife.
  vm_compute in Hlife. discriminate Hlife.
Qed.

(** * Further properties of the key manager *)

Section Issuing.

Variable env : Env.

(** [validate_key] on a non-empty credential that has a record. *)
Lemma validate_key_known (w : World) (api_key : string) scope ki :
  api_key <> "" ->
  record_of w (_hash_key env api_key) = Some ki ->
  validate_key env (Some api_key) scope w =
    (Return
       (if expires_at ki <? clock env (time_reads w) then (false, Some Expired)
        else
          match scope with
          | Some s =>
              if truthy (Some s) && negb (py_in s (scopes ki))
                 && negb (py_in "*" (scopes ki))
              then (false, Some (ScopeDenied s))
              else (true, None)
          | None => (true, None)
          end),
     ticked w).
Proof.
  unfold record_of, validate_key. intros Hne Hk.
  apply truthy_Some in Hne. rewrite Hne. cbn [negb]. run_monad. rewrite Hk.
  run_monad. destruct (expires_at ki <? _); [reflexivity |].
  destruct scope as [s |]; [| reflexivity].
  destruct (_ && _); reflexivity.
Qed.

(** The world that [generate_key] leaves, spelled out: the identifier is
    drawn, the metadata dict made and the clock read twice before the sum
    for the expiry is computed; the record is stored after it. *)
Lemma generate_key_run (w : World) sc rl days md :
  generate_key env sc rl days md w =
    let api_key := "sk-" +:+ uuid4_hex env (uuid_draws w) in
    let l := match md with
             | Some l => l
             | None => fresh (dom (objects w))
             end in
    let ki := KeyInfo (default ["*"] sc)
                (default (_default_rate_limit (api_key_manager w)) rl)
                (clock env (time_reads w))
                (clock env (S (time_reads w)) + days * 24 * 3600) l in
    let dicts := match md with
                 | Some _ => objects w
                 | None => <[l := ∅]> (objects w)
                 end in
    if overflows (days * 24 * 3600)
    then (Raise OverflowError,
          MkWorld (api_key_manager w) dicts (S (S (time_reads w)))
                  (S (uuid_draws w)))
    else (Return api_key,
          MkWorld
            (with_api_keys (insert (_hash_key env api_key) ki) (api_key_manager w))
            dicts (S (S (time_reads w))) (S (uuid_draws w))).
Proof.
  unfold generate_key. run_monad.
  destruct md; run_monad; rewrite float_add_int_run;
    destruct (overflows (days * 24 * 3600)); reflexivity.
Qed.

(** X1.  When the number of days is small enough for the float sum for
    the expiry to be exact, [generate_key] returns ["sk-"] followed by the
    identifier drawn and stores under its digest a record with the scopes
    given (["*"] when none), the rate limit given (the manager's default
    when none), the two readings of the clock, and as metadata the caller's
    dict itself, or a dict that did not exist before and is empty.  Records
    of other digests, all trackers and all dicts that existed are left as
    they were.  When the number of days is too large to be converted to a
    float, it raises [OverflowError] and the manager is as before: no key
    has been issued. *)
Theorem generate_key_issues (w : World) (sc : option (list string))
    (rl : option Z) (days : Z) (md : option loc) :
  let api_key := "sk-" +:+ uuid4_hex env (uuid_draws w) in
  let h := _hash_key env api_key in
  let t := time_reads w in
  let r := generate_key env sc rl days md w in
  (float_exact (clock env (S t)) (days * 24 * 3600) ->
   fst r = Return api_key /\
   (exists l,
      record_of (snd r) h =
        Some (KeyInfo (default ["*"] sc)
                      (default (_default_rate_limit (api_key_manager w)) rl)
                      (clock env t) (clock env (S t) + days * 24 * 3600) l) /\
      match md with
      | Some l' => l = l' /\ objects (snd r) = objects w
      | None => objects w !! l = None /\ objects (snd r) = <[l := ∅]> (objects w)
      end) /\
   (forall h', h' <> h -> record_of (snd r) h' = record_of w h') /\
   _request_tracker (api_key_manager (snd r)) =
     _request_tracker (api_key_manager w)) /\
  (overflows (days * 24 * 3600) = true ->
   fst r = Raise OverflowError /\ api_key_manager (snd r) = api_key_manager w).
Proof.
  intros api_key h t r. subst r. rewrite generate_key_run. cbv zeta.
  fold api_key h t. split.
  - intros Hexact. rewrite (float_exact_no_overflow _ _ Hexact). cbn [fst snd].
    split; [reflexivity |]. split; [| split].
    + eexists. split.
      * unfold record_of, with_api_keys. cbn. apply lookup_insert_eq.
      * destruct md as [l' |]; cbn [objects].
        -- split; reflexivity.
        -- split; [| reflexivity].
           apply not_elem_of_dom. apply is_fresh.
    + intros h' Hne. unfold record_of, with_api_keys. cbn.
      apply lookup_insert_ne. intros Heq. apply Hne. symmetry. exact Heq.
    + reflexivity.
  - intros ->. split; reflexivity.
Qed.

(** X2.  A key just issued validates (the number of days being small
    enough for the float sum for the expiry to be exact): when the clock, at
    the validation, has not passed its expiry, [validate_key] on the returned key gives
    [(True, None)] for no scope, the empty scope, a scope among those given
    at issue, and any scope when ["*"] is among them (in particular when no
    scopes were given); for any other scope it gives the permission
    message.  When the clock has passed the expiry it gives the expiry
    message. *)
Theorem generate_key_then_validate (w : World) (sc : option (list string))
    (rl : option Z) (days : Z) (md : option loc) (scope : option string) :
  let api_key := "sk-" +:+ uuid4_hex env (uuid_draws w) in
  let granted := default ["*"] sc in
  let expiry := clock env (S (time_reads w)) + days * 24 * 3600 in
  let now := clock env (S (S (time_reads w))) in
  let v := fst (validate_key env (Some api_key) scope
                  (snd (generate_key env sc rl days md w))) in
  float_exact (clock env (S (time_reads w))) (days * 24 * 3600) ->
  (expiry < now -> v = Return (false, Some Expired)) /\
  (now <= expiry ->
     (scope = None \/ scope = Some "" \/
      (exists s, scope = Some s /\ (s ∈ granted \/ "*" ∈ granted)) ->
        v = Return (true, None)) /\
     (forall s, scope = Some s -> s <> "" -> s ∉ granted -> "*" ∉ granted ->
        v = Return (false, Some (ScopeDenied s)))).
Proof.
  intros api_key granted expiry now v Hexact. subst v.
  rewrite generate_key_run. cbv zeta.
  rewrite (float_exact_no_overflow _ _ Hexact). cbn [snd].
  rewrite (validate_key_known _ api_key scope
             (KeyInfo granted (default (_default_rate_limit (api_key_manager w)) rl)
                (clock env (time_reads w)) expiry
                (match md with
                 | Some l => l
                 | None => fresh (dom (objects w))
                 end))).
  - cbn [fst expires_at scopes time_reads]. fold now. split.
    + intros Hexp. replace (expiry <? now) with true by (symmetry; lia). reflexivity.
    + intros Hlive. replace (expiry <? now) with false by (symmetry; lia). split.
      * intros [-> | [-> | [s [-> [Hin | Hin]]]]]; try reflexivity;
          apply py_in_spec in Hin; rewrite Hin; rewrite andb_false_r; reflexivity.
      * intros s -> Hs Hnot Hstar.
        apply truthy_Some in Hs. apply py_in_false in Hnot, Hstar.
        rewrite Hs, Hnot, Hstar. reflexivity.
  - discriminate.
  - unfold record_of, with_api_keys. cbn. apply lookup_insert_eq.
Qed.

End Issuing.

Lemma generate_key_issues_witness :
  (exists l,
     record_of scoped "sk-0" = Some (KeyInfo ["read"] 1000 2 7776003 l) /\
     objects booted !! l = None /\
     record_of scoped "test-mcp-api-key-local-dev" =
       record_of booted "test-mcp-api-key-local-dev") /\
  fst (generate_key demo_env None None (10 ^ 400) None booted) =
    Raise OverflowError.
Proof.
  split.
  - destruct (generate_key_issues demo_env booted (Some ["read"]) None 90 None)
      as [Hissued _].
    destruct Hissued as [_ [[l [Hrecord [Hnew _]]] [Hframe _]]].
    { vm_compute. repeat split; discriminate. }
    exists l. split; [exact Hrecord | split; [exact Hnew |]].
    apply Hframe. discriminate.
  - destruct (generate_key_issues demo_env booted None None (10 ^ 400) None)
      as [_ Hraised].
    apply Hraised. vm_compute. reflexivity.
Defined.

Lemma generate_key_then_validate_witness :
  fst (validate_key demo_env (Some "sk-0") (Some "read") scoped) =
    Return (true, None) /\
  fst (validate_key demo_env (Some "sk-0") (Some "write") scoped) =
    Return (false, Some (ScopeDenied "write")).
Proof.
  split.
  - destruct (generate_key_then_validate demo_env booted (Some ["read"]) None 90
                None (Some "read")) as [_ Hlive].
    { vm_compute. repeat split; discriminate. }
    destruct (Hlive ltac:(vm_compute; discriminate)) as [Hok _].
    apply Hok. right. right. exists "read". split; [reflexivity |].
    left. apply py_in_spec. vm_compute. reflexivity.
  - destruct (generate_key_then_validate demo_env booted (Some ["read"]) None 90
                None (Some "write")) as [_ Hlive].
    { vm_compute. repeat split; discriminate. }
    destruct (Hlive ltac:(vm_compute; discriminate)) as [_ Hdenied].
    apply (Hdenied "write" eq_refl); [discriminate | |];
      apply py_in_false; vm_compute; reflexivity.
Defined.

Section Updating.

Variable env : Env.

(** X3.  The metadata dict is shared, not copied: when the records of two
    digests hold the same dict (two keys issued with one dict object), an
    [update_key] with metadata for the first key that returns leaves the
    second record itself as it was, and yet the metadata reached through
    the second record has received the update. *)
Theorem update_key_shared_metadata (w : World) (api_key : string) (h2 : string)
    sc rl days (other d : gmap string pyval) ki1 ki2 :
  record_of w (_hash_key env api_key) = Some ki1 ->
  record_of w h2 = Some ki2 ->
  h2 <> _hash_key env api_key ->
  metadata ki2 = metadata ki1 ->
  objects w !! metadata ki1 = Some d ->
  fst (update_key env api_key sc rl days (Some other) w) = Return true ->
  let w' := snd (update_key env api_key sc rl days (Some other) w) in
  record_of w' h2 = Some ki2 /\
  objects w' !! metadata ki2 = Some (other ∪ d).
Proof.
  intros Hk1 Hk2 Hne Hsame Hd Hret w'. subst w'. revert Hret.
  rewrite (update_key_run env w api_key sc rl days (Some other) ki1 Hk1). cbv zeta.
  destruct days as [days |]; [destruct (overflows (days * 24 * 3600)) |];
    cbn [fst snd]; intros Hret; try discriminate Hret.
  all: split;
    [unfold record_of, with_api_keys; cbn;
     rewrite lookup_insert_ne by (intros Heq; apply Hne; symmetry; exact Heq);
     exact Hk2
    | cbn [objects]; rewrite Hsame, lookup_alter_eq, Hd; reflexivity].
Qed.

(** X11.  A number of days too large to be converted to a float makes
    [update_key] raise [OverflowError] half way: the scopes and the rate
    limit given with it are stored by then, the expiry and the metadata
    are not, and no tracker is touched. *)
Theorem update_key_overflow (w : World) (api_key : string) sc rl
    (days : Z) md ki :
  let h := _hash_key env api_key in
  let r := update_key env api_key sc rl (Some days) md w in
  record_of w h = Some ki ->
  overflows (days * 24 * 3600) = true ->
  fst r = Raise OverflowError /\
  record_of (snd r) h =
    Some (KeyInfo (default (scopes ki) sc) (default (rate_limit ki) rl)
            (created_at ki) (expires_at ki) (metadata ki)) /\
  (forall h', h' <> h -> record_of (snd r) h' = record_of w h') /\
  objects (snd r) = objects w /\
  _request_tracker (api_key_manager (snd r)) = _request_tracker (api_key_manager w).
Proof.
  intros h r Hk Hover. subst r.
  rewrite (update_key_run env w api_key sc rl (Some days) md ki Hk). cbv zeta.
  rewrite Hover. cbn [fst snd]. fold h.
  split; [reflexivity |]. split; [| split; [| split; reflexivity]].
  - unfold record_of, with_api_keys. cbn. apply lookup_insert_eq.
  - intros h' Hne. unfold record_of, with_api_keys. cbn.
    apply lookup_insert_ne. intros Heq. apply Hne. symmetry. exact Heq.
Qed.

(** X12.  [update_key] sets the expiry from the present time (the number
    of days being small enough for the float sum to be exact).  With a
    negative number of days and a clock that never goes back, the key is
    expired from then on: every later validation of a world that still
    holds the updated record answers with the expiry message.  With a
    number of days that is not negative, a validation made before the clock
    has moved past [now + days * 24 * 3600] is not refused as expired. *)
Theorem update_key_sets_expiry (w : World) (api_key : string) sc rl
    (days : Z) md ki :
  let h := _hash_key env api_key in
  let w1 := snd (update_key env api_key sc rl (Some days) md w) in
  monotone_clock env ->
  api_key <> "" ->
  record_of w h = Some ki ->
  float_exact (clock env (time_reads w)) (days * 24 * 3600) ->
  forall w2 scope,
    record_of w2 h = record_of w1 h ->
    (time_reads w1 <= time_reads w2)%nat ->
    (days < 0 ->
       fst (validate_key env (Some api_key) scope w2) =
         Return (false, Some Expired)) /\
    (0 <= days ->
       clock env (time_reads w2) <= clock env (time_reads w) + days * 24 * 3600 ->
       fst (validate_key env (Some api_key) scope w2) <>
         Return (false, Some Expired)).
Proof.
  intros h w1 Hmono Hne Hk Hexact w2 scope Hsame Hlater. subst w1.
  rewrite (update_key_run env w api_key sc rl (Some days) md ki Hk) in Hsame, Hlater.
  cbv zeta in Hsame, Hlater.
  rewrite (float_exact_no_overflow _ _ Hexact) in Hsame, Hlater.
  cbn [snd time_reads] in Hsame, Hlater.
  unfold record_of at 2 in Hsame. unfold with_api_keys in Hsame. cbn in Hsame.
  fold h in Hsame. rewrite lookup_insert_eq in Hsame.
  rewrite (validate_key_known env w2 api_key scope _ Hne Hsame).
  cbn [fst expires_at scopes]. split.
  - intros Hneg.
    pose proof (Hmono (time_reads w) (time_reads w2) ltac:(lia)) as Hclock.
    replace (_ <? _) with true by (symmetry; lia). reflexivity.
  - intros Hpos Hsoon.
    replace (_ <? _) with false by (symmetry; lia).
    destruct scope as [s |]; [| discriminate].
    destruct (_ && _); discriminate.
Qed.

End Updating.

Lemma update_key_shared_metadata_witness :
  record_of (snd (update_key pair_env "sk-a" None None None
                    (Some {[ "owner" := PyStr "ann" ]}) shared)) "sk-b" =
    Some (KeyInfo ["*"] 1000 4 7776005 2) /\
  objects (snd (update_key pair_env "sk-a" None None None
                  (Some {[ "owner" := PyStr "ann" ]}) shared))
    !! 2%positive =
    Some ({[ "owner" := PyStr "ann" ]} ∪ {[ "team" := PyStr "ops" ]}).
Proof.
  apply (update_key_shared_metadata pair_env shared "sk-a" "sk-b" None None None
           {[ "owner" := PyStr "ann" ]} {[ "team" := PyStr "ops" ]}
           (KeyInfo ["*"] 1000 2 7776003 2) (KeyInfo ["*"] 1000 4 7776005 2)).
  - vm_compute. reflexivity.
  - vm_compute. reflexivity.
  - discriminate.
  - reflexivity.
  - vm_compute. reflexivity.
  - vm_compute. reflexivity.
Defined.

Lemma update_key_overflow_witness :
  fst (update_key demo_env "sk-0" (Some ["read"]) (Some 7) (Some (10 ^ 400))
         (Some {[ "a" := PyInt 1 ]}) limited) = Raise OverflowError /\
  record_of (snd (update_key demo_env "sk-0" (Some ["read"]) (Some 7)
                    (Some (10 ^ 400)) (Some {[ "a" := PyInt 1 ]}) limited))
    "sk-0" = Some (KeyInfo ["read"] 7 2 7776003 2).
Proof.
  destruct (update_key_overflow demo_env limited "sk-0" (Some ["read"]) (Some 7)
              (10 ^ 400) (Some {[ "a" := PyInt 1 ]}) limited_record
              ltac:(vm_compute; reflexivity) ltac:(vm_compute; reflexivity))
    as [Hraise [Hrecord _]].
  split; [exact Hraise | exact Hrecord].
Defined.

Lemma update_key_sets_expiry_witness :
  fst (validate_key demo_env (Some "sk-0") None
         (snd (update_key demo_env "sk-0" None None (Some (-1)) None limited))) =
    Return (false, Some Expired) /\
  fst (validate_key demo_env (Some "sk-0") None
         (snd (update_key demo_env "sk-0" None None (Some 1) None limited))) <>
    Return (false, Some Expired).
Proof.
  split.
  - pose proof (update_key_sets_expiry demo_env limited "sk-0" None None (-1) None
                  limited_record
                  ltac:(intros i j Hij; cbn [demo_env clock]; lia)
                  ltac:(discriminate) ltac:(vm_compute; reflexivity)
                  ltac:(vm_compute; repeat split; discriminate)
                  (snd (update_key demo_env "sk-0" None None (Some (-1)) None limited))
                  None eq_refl ltac:(vm_compute; lia)) as [Hneg _].
    apply Hneg. lia.
  - pose proof (update_key_sets_expiry demo_env limited "sk-0" None None 1 None
                  limited_record
                  ltac:(intros i j Hij; cbn [demo_env clock]; lia)
                  ltac:(discriminate) ltac:(vm_compute; reflexivity)
                  ltac:(vm_compute; repeat split; discriminate)
                  (snd (update_key demo_env "sk-0" None None (Some 1) None limited))
                  None eq_refl ltac:(vm_compute; lia)) as [_ Hpos].
    apply Hpos; [lia | vm_compute; discriminate].
Defined.

Section Bootstrap.

Variable env : Env.

(** [_load_default_api_key] when the default digest has no record. *)
Lemma load_default_run (w : World) :
  record_of w (_hash_key env (default_key env)) = None ->
  _load_default_api_key env w =
    let l := fresh (dom (objects w)) in
    (Return tt,
     MkWorld
       (with_api_keys
          (insert (_hash_key env (default_key env))
             (KeyInfo ["*"] (_default_rate_limit (api_key_manager w))
                (clock env (time_reads w))
                (clock env (S (time_reads w)) + 365 * 24 * 3600) l))
          (api_key_manager w))
       (<[l := {[ "name" := PyStr "Default Development API Key";
                  "created_by" := PyStr "system" ]}]> (objects w))
       (S (S (time_reads w))) (uuid_draws w)).
Proof.
  unfold record_of, default_key, _load_default_api_key. intros Hk. run_monad.
  rewrite Hk. reflexivity.
Qed.

(** X4.  The bootstrap is idempotent.  [_load_default_api_key] changes
    nothing when the digest of the default credential already has a record,
    whatever the record holds; when it has none, it stores a record with
    scope ["*"], the manager's default rate limit and an expiry one year
    after the clock reading (where that float sum is exact), with a new
    metadata dict.  A manager just created holds exactly this one record,
    with rate limit 1000, and no tracker, and a second bootstrap leaves it
    as it is. *)
Theorem load_default_idempotent (w0 : World) :
  let h := _hash_key env (default_key env) in
  let w := snd (APIKeyManager__init__ env w0) in
  (forall w1, is_Some (record_of w1 h) ->
     _load_default_api_key env w1 = (Return tt, w1)) /\
  (forall w1, record_of w1 h = None ->
     float_exact (clock env (S (time_reads w1))) 31536000 ->
     exists l,
       objects w1 !! l = None /\
       record_of (snd (_load_default_api_key env w1)) h =
         Some (KeyInfo ["*"] (_default_rate_limit (api_key_manager w1))
                 (clock env (time_reads w1))
                 (clock env (S (time_reads w1)) + 31536000) l) /\
       forall h', h' <> h ->
         record_of (snd (_load_default_api_key env w1)) h' = record_of w1 h') /\
  (float_exact (clock env (S (time_reads w0))) 31536000 ->
   exists l,
     _api_keys (api_key_manager w) =
       {[ h := KeyInfo ["*"] 1000 (clock env (time_reads w0))
                 (clock env (S (time_reads w0)) + 31536000) l ]}) /\
  _request_tracker (api_key_manager w) = ∅ /\
  _load_default_api_key env w = (Return tt, w).
Proof.
  intros h w.
  assert (Hkeep : forall w1, is_Some (record_of w1 h) ->
             _load_default_api_key env w1 = (Return tt, w1)).
  { intros w1 [ki Hk]. unfold record_of in Hk. subst h. unfold default_key in Hk.
    unfold _load_default_api_key. run_monad. rewrite Hk. reflexivity. }
  assert (Hinit : w = snd (_load_default_api_key env
                             (with_manager (fun _ => Manager ∅ ∅ 3600 1000) w0)))
    by reflexivity.
  assert (Hempty : record_of (with_manager (fun _ => Manager ∅ ∅ 3600 1000) w0) h
                   = None) by apply lookup_empty.
  rewrite (load_default_run _ Hempty) in Hinit. cbv zeta in Hinit.
  cbn [snd with_manager api_key_manager objects time_reads uuid_draws
       _default_rate_limit with_api_keys _api_keys _request_tracker
       _rate_limit_window] in Hinit.
  split; [exact Hkeep | split; [| split; [| split]]].
  - intros w1 Hk _. rewrite (load_default_run w1 Hk). cbv zeta. cbn [snd].
    eexists. split; [apply not_elem_of_dom; apply is_fresh |]. split.
    + unfold record_of, with_api_keys. cbn. apply lookup_insert_eq.
    + intros h' Hne. unfold record_of, with_api_keys. cbn.
      apply lookup_insert_ne. intros Heq. apply Hne. symmetry. exact Heq.
  - intros _. eexists. rewrite Hinit. cbn [api_key_manager _api_keys]. reflexivity.
  - rewrite Hinit. reflexivity.
  - apply Hkeep. unfold record_of. rewrite Hinit. cbn [api_key_manager _api_keys].
    eexists. apply lookup_insert_eq.
Qed.

End Bootstrap.

Lemma load_default_idempotent_witness :
  _load_default_api_key demo_env limited = (Return tt, limited) /\
  (exists l,
     record_of (snd (_load_default_api_key demo_env
                       (snd (revoke_key demo_env "test-mcp-api-key-local-dev" limited))))
       "test-mcp-api-key-local-dev" =
       Some (KeyInfo ["*"] 1000 4 31536005 l)).
Proof.
  destruct (load_default_idempotent demo_env start) as [Hkeep [Hseed _]].
  split.
  - apply Hkeep. exists (KeyInfo ["*"] 1000 0 31536001 1). vm_compute. reflexivity.
  - destruct (Hseed (snd (revoke_key demo_env "test-mcp-api-key-local-dev" limited))
                ltac:(vm_compute; reflexivity)
                ltac:(vm_compute; repeat split; discriminate))
      as [l [_ [Hrecord _]]].
    exists l. exact Hrecord.
Defined.

Section Counting.

Variable env : Env.

(** [n] calls in the window of a tracker that holds [c] requests: the first
    [limit - c] of them are admitted, the others rejected. *)
Lemma check_rate_limit_times_tracked (api_key : string) ki (t0 : Z) (n : nat) :
  forall (w : World) (c : Z),
    record_of w (_hash_key env api_key) = Some ki ->
    tracker_of w (_hash_key env api_key) = Some (Tracker c t0) ->
    (forall i : nat, (time_reads w <= i < time_reads w + n)%nat ->
       clock env i - t0 <= _rate_limit_window (api_key_manager w)) ->
    let a := Z.to_nat (Z.min (Z.of_nat n) (Z.max 0 (rate_limit ki - c))) in
    exists w',
      check_rate_limit_times env api_key n w =
        ((repeat (Return (true, None)) a ++
          repeat (Return (false, Some RateLimitExceeded)) (n - a))%list, w') /\
      tracker_of w' (_hash_key env api_key) = Some (Tracker (c + Z.of_nat a) t0).
Proof.
  induction n as [| n IH]; intros w c Hk Ht Hclock a.
  - exists w. replace a with 0%nat by (subst a; lia). cbn. rewrite Z.add_0_r.
    split; [reflexivity | exact Ht].
  - cbn [check_rate_limit_times].
    assert (Hnow : clock env (time_reads w) - window_start (Tracker c t0) <=
                   _rate_limit_window (api_key_manager w)).
    { cbn [window_start]. apply Hclock. lia. }
    destruct (Z_lt_le_dec c (rate_limit ki)) as [Hunder | Hfull].
    + rewrite (check_rate_limit_admits env w api_key ki (Tracker c t0) Hk Ht Hnow Hunder).
      cbn [requests window_start].
      destruct (IH (tracked (_hash_key env api_key) (Tracker (c + 1) t0) (ticked w))
                  (c + 1) Hk (tracker_of_tracked _ _ _)) as [w' [Hrun Htr]].
      { intros i Hi. apply Hclock. cbn in Hi. lia. }
      rewrite Hrun. exists w'.
      replace a with (S (Z.to_nat (Z.min (Z.of_nat n)
                                     (Z.max 0 (rate_limit ki - (c + 1))))))
        by (subst a; lia).
      split; [reflexivity |]. rewrite Htr. f_equal. f_equal. lia.
    + rewrite (check_rate_limit_rejects env w api_key ki (Tracker c t0) Hk Ht Hnow Hfull).
      destruct (IH (ticked w) c Hk Ht) as [w' [Hrun Htr]].
      { intros i Hi. apply Hclock. cbn in Hi. lia. }
      replace (Z.to_nat (Z.min (Z.of_nat n) (Z.max 0 (rate_limit ki - c))))
        with 0%nat in Hrun, Htr by lia.
      rewrite Hrun. exists w'.
      replace a with 0%nat by (subst a; lia).
      split; [| exact Htr]. cbn [repeat List.app]. rewrite !Nat.sub_0_r.
      reflexivity.
Qed.

(** X5.  The number of requests admitted in one window is the rate limit.
    For a stored record without a tracker, [n] successive calls of
    [check_rate_limit] whose clock readings all stay within the window
    length of the first reading let the first [min n (max 0 rate_limit)]
    calls through and reject all the others with the rate-limit message; after
    them [requests] is that number and [window_start] is the first
    reading. *)
Theorem check_rate_limit_times_fresh (w : World) (api_key : string) ki (n : nat) :
  let h := _hash_key env api_key in
  let now := clock env (time_reads w) in
  let a := Z.to_nat (Z.min (Z.of_nat n) (Z.max 0 (rate_limit ki))) in
  record_of w h = Some ki ->
  tracker_of w h = None ->
  (forall i : nat, (time_reads w < i <= time_reads w + n)%nat ->
     clock env i - now <= _rate_limit_window (api_key_manager w)) ->
  exists w',
    check_rate_limit_times env api_key n w =
      ((repeat (Return (true, None)) a ++
        repeat (Return (false, Some RateLimitExceeded)) (n - a))%list, w') /\
    ((0 < n)%nat -> tracker_of w' h = Some (Tracker (Z.of_nat a) now)).
Proof.
  intros h now a Hk Ht Hclock. destruct n as [| n].
  - exists w. replace a with 0%nat by (subst a; lia). split; [reflexivity | lia].
  - destruct (check_rate_limit_times_tracked api_key ki now (S n)
                (tracked h (Tracker 0 now) (ticked w)) 0 Hk
                (tracker_of_tracked _ _ _)) as [w' [Hrun Htr]].
    { intros i Hi. apply Hclock. cbn in Hi. lia. }
    exists w'. rewrite Z.sub_0_r in Hrun, Htr. fold a in Hrun, Htr. split.
    + cbn [check_rate_limit_times] in Hrun |- *.
      rewrite (check_rate_limit_first env w api_key Ht). exact Hrun.
    + intros _. rewrite Z.add_0_l in Htr. exact Htr.
Qed.

(** X6.  An admission never pushes the count past the limit, whatever the
    clock does.  For a stored record whose tracker, if there is one, holds
    between 0 and [max 0 rate_limit] requests, the tracker after
    [check_rate_limit] holds between 0 and [max 0 rate_limit] requests
    again.  The call leaves the trackers of all other digests and all
    records as they were. *)
Theorem check_rate_limit_bounded (w : World) (api_key : string) ki :
  let h := _hash_key env api_key in
  let w' := snd (check_rate_limit env api_key w) in
  record_of w h = Some ki ->
  (forall tr, tracker_of w h = Some tr ->
     0 <= requests tr <= Z.max 0 (rate_limit ki)) ->
  (exists tr', tracker_of w' h = Some tr' /\
     0 <= requests tr' <= Z.max 0 (rate_limit ki)) /\
  (forall h', h' <> h -> tracker_of w' h' = tracker_of w h') /\
  _api_keys (api_key_manager w') = _api_keys (api_key_manager w).
Proof.
  intros h w' Hk Hbound. subst w'.
  assert (Hother : forall t v h', h' <> h ->
            tracker_of (tracked h t v) h' = tracker_of v h').
  { intros t v h' Hne. unfold tracker_of, tracked, with_manager, with_request_tracker.
    cbn. apply lookup_insert_ne. intros Heq. apply Hne. symmetry. exact Heq. }
  assert (Hstep : forall v tr, record_of v h = Some ki ->
            tracker_of v h = Some tr ->
            0 <= requests tr <= Z.max 0 (rate_limit ki) ->
            (exists tr', tracker_of (snd (check_rate_limit env api_key v)) h = Some tr' /\
               0 <= requests tr' <= Z.max 0 (rate_limit ki)) /\
            (forall h', h' <> h ->
               tracker_of (snd (check_rate_limit env api_key v)) h' = tracker_of v h') /\
            _api_keys (api_key_manager (snd (check_rate_limit env api_key v))) =
              _api_keys (api_key_manager v)).
  { intros v tr Hkv Htv Hb.
    rewrite (check_rate_limit_known env v api_key ki tr Hkv Htv). cbv zeta. fold h.
    destruct (_ >? _); cbn [requests window_start];
      destruct (_ >=? rate_limit ki) eqn:Hlim; cbn [snd].
    - split; [| split; [| reflexivity]].
      + eexists. split; [apply tracker_of_tracked |]. cbn [requests]. lia.
      + intros h' Hne. rewrite Hother by exact Hne. reflexivity.
    - split; [| split; [| reflexivity]].
      + eexists. split; [apply tracker_of_tracked |]. cbn [requests]. lia.
      + intros h' Hne. rewrite !Hother by exact Hne. reflexivity.
    - split; [| split; [| reflexivity]].
      + exists tr. split; [exact Htv | exact Hb].
      + intros h' Hne. reflexivity.
    - split; [| split; [| reflexivity]].
      + eexists. split; [apply tracker_of_tracked |]. cbn [requests]. lia.
      + intros h' Hne. rewrite Hother by exact Hne. reflexivity. }
  destruct (tracker_of w h) as [tr |] eqn:Ht.
  - apply (Hstep w tr Hk Ht). apply Hbound. reflexivity.
  - rewrite (check_rate_limit_first env w api_key Ht). fold h.
    destruct (Hstep (tracked h (Tracker 0 (clock env (time_reads w))) (ticked w))
                (Tracker 0 (clock env (time_reads w))) Hk
                (tracker_of_tracked _ _ _)) as [Hcount [Hframe Hkeys]].
    { cbn [requests]. lia. }
    split; [exact Hcount | split; [| exact Hkeys]].
    intros h' Hne. rewrite (Hframe h' Hne). rewrite Hother by exact Hne. reflexivity.
Qed.

End Counting.

Lemma check_rate_limit_times_fresh_witness :
  exists w',
    check_rate_limit_times demo_env "sk-0" 5 limited =
      ([Return (true, None); Return (true, None); Return (true, None);
        Return (false, Some RateLimitExceeded);
        Return (false, Some RateLimitExceeded)], w') /\
    tracker_of w' "sk-0" = Some (Tracker 3 4).
Proof.
  destruct (check_rate_limit_times_fresh demo_env limited "sk-0" limited_record 5
              ltac:(vm_compute; reflexivity) ltac:(vm_compute; reflexivity))
    as [w' [Hrun Htr]].
  - intros i Hi. change (time_reads limited) with 4%nat in *.
    cbn [demo_env clock].
    change (_rate_limit_window (api_key_manager limited)) with 3600. lia.
  - exists w'. split; [exact Hrun | apply Htr; lia].
Defined.

Lemma check_rate_limit_bounded_witness :
  exists tr',
    tracker_of (snd (check_rate_limit demo_env "sk-0" exhausted)) "sk-0" = Some tr' /\
    0 <= requests tr' <= Z.max 0 3.
Proof.
  destruct (check_rate_limit_bounded demo_env exhausted "sk-0" limited_record
              ltac:(vm_compute; reflexivity)) as [Hcount _].
  - intros tr Htr. vm_compute in Htr. injection Htr as <-.
    unfold limited_record. cbn [requests rate_limit]. lia.
  - exact Hcount.
Defined.

Section Orphans.

Variable env : Env.

(** What [check_rate_limit] touches when the record exists: the tracker of
    the digest, which exists afterwards, and nothing else of the manager. *)
Lemma check_rate_limit_frame (w : World) (api_key : string) ki :
  record_of w (_hash_key env api_key) = Some ki ->
  is_Some (tracker_of (snd (check_rate_limit env api_key w)) (_hash_key env api_key)) /\
  (forall h', h' <> _hash_key env api_key ->
     tracker_of (snd (check_rate_limit env api_key w)) h' = tracker_of w h') /\
  _api_keys (api_key_manager (snd (check_rate_limit env api_key w))) =
    _api_keys (api_key_manager w) /\
  (fst (check_rate_limit env api_key w) = Return (true, None) \/
   fst (check_rate_limit env api_key w) = Return (false, Some RateLimitExceeded)).
Proof.
  intros Hk.
  assert (Hother : forall t v h', h' <> _hash_key env api_key ->
            tracker_of (tracked (_hash_key env api_key) t v) h' = tracker_of v h').
  { intros t v h' Hne. unfold tracker_of, tracked, with_manager, with_request_tracker.
    cbn. apply lookup_insert_ne. intros Heq. apply Hne. symmetry. exact Heq. }
  assert (Hstep : forall v tr, record_of v (_hash_key env api_key) = Some ki ->
            tracker_of v (_hash_key env api_key) = Some tr ->
            is_Some (tracker_of (snd (check_rate_limit env api_key v))
                       (_hash_key env api_key)) /\
            (forall h', h' <> _hash_key env api_key ->
               tracker_of (snd (check_rate_limit env api_key v)) h' = tracker_of v h') /\
            _api_keys (api_key_manager (snd (check_rate_limit env api_key v))) =
              _api_keys (api_key_manager v) /\
            (fst (check_rate_limit env api_key v) = Return (true, None) \/
             fst (check_rate_limit env api_key v) =
               Return (false, Some RateLimitExceeded))).
  { intros v tr Hkv Htv.
    rewrite (check_rate_limit_known env v api_key ki tr Hkv Htv). cbv zeta.
    destruct (_ >? _); destruct (_ >=? rate_limit ki); cbn [fst snd].
    all: split; [first [rewrite tracker_of_tracked; eauto | exists tr; exact Htv] |].
    all: split; [intros h' Hne; rewrite ?Hother by exact Hne; reflexivity |].
    all: split; [reflexivity | first [left; reflexivity | right; reflexivity]]. }
  destruct (tracker_of w (_hash_key env api_key)) as [tr |] eqn:Ht.
  - apply (Hstep w tr Hk Ht).
  - rewrite (check_rate_limit_first env w api_key Ht).
    destruct (Hstep (tracked (_hash_key env api_key)
                       (Tracker 0 (clock env (time_reads w))) (ticked w))
                (Tracker 0 (clock env (time_reads w))) Hk
                (tracker_of_tracked _ _ _)) as [Hsome [Hframe [Hkeys Hret]]].
    split; [exact Hsome | split; [| split; [exact Hkeys | exact Hret]]].
    intros h' Hne. rewrite (Hframe h' Hne). rewrite Hother by exact Hne. reflexivity.
Qed.

(** X7.  No tracker without a record, as long as the rate check is made for
    credentials that have a record.  If every tracker belongs to a stored
    record, this is still so after the bootstrap, [generate_key],
    [update_key], [validate_key] and [revoke_key] with any arguments, and
    after [check_rate_limit] for a credential that has a record.  It holds
    in a manager just created. *)
Theorem trackers_keep_records (o : op) (w w0 : World) :
  (trackers_have_records w ->
   (forall api_key, o = op_check_rate_limit api_key ->
      is_Some (record_of w (_hash_key env api_key))) ->
   trackers_have_records (perform_op env o w)) /\
  trackers_have_records (snd (APIKeyManager__init__ env w0)).
Proof.
  assert (Hgrow : forall v v' : World,
            trackers_have_records v ->
            (forall h, is_Some (record_of v h) -> is_Some (record_of v' h)) ->
            (forall h, is_Some (tracker_of v' h) ->
               is_Some (tracker_of v h) \/ is_Some (record_of v' h)) ->
            trackers_have_records v').
  { intros v v' Hv Hrec Htr h Hh. destruct (Htr h Hh) as [Hold | Hnew]; [| exact Hnew].
    apply Hrec. apply Hv. exact Hold. }
  assert (Hinsert : forall (keys : gmap string key_info) h ki h',
            is_Some (keys !! h') -> is_Some (<[h := ki]> keys !! h')).
  { intros keys h ki h' Hh. rewrite lookup_insert. case_decide; eauto. }
  assert (Hload : forall v, trackers_have_records v ->
            trackers_have_records (snd (_load_default_api_key env v))).
  { intros v Hv.
    destruct (record_of v (_hash_key env (default_key env))) as [ki |] eqn:Hk.
    - unfold record_of, default_key in Hk. unfold _load_default_api_key. run_monad.
      rewrite Hk. exact Hv.
    - rewrite (load_default_run env v Hk). cbv zeta. cbn [snd].
      apply (Hgrow v); [exact Hv | |].
      + intros h. unfold record_of, with_api_keys. cbn. apply Hinsert.
      + intros h Hh. left. exact Hh. }
  split.
  - intros Hw Hcheck. destruct o; cbn [perform_op].
    + apply Hload. exact Hw.
    + rewrite generate_key_run. cbv zeta.
      destruct (overflows (expires_in_days * 24 * 3600)); cbn [snd].
      * exact Hw.
      * apply (Hgrow w); [exact Hw | |].
        -- intros h. unfold record_of, with_api_keys. cbn. apply Hinsert.
        -- intros h Hh. left. exact Hh.
    + destruct (record_of w (_hash_key env api_key)) as [ki |] eqn:Hk.
      * rewrite (update_key_run env w api_key _ _ _ _ ki Hk). cbv zeta.
        destruct expires_in_days as [d |];
          [destruct (overflows (d * 24 * 3600)) |]; cbn [snd].
        all: apply (Hgrow w); [exact Hw | |].
        all: try (intros h Hh; left; exact Hh).
        all: intros h; unfold record_of, with_api_keys; cbn; apply Hinsert.
      * unfold record_of in Hk. unfold update_key. run_monad. rewrite Hk. exact Hw.
    + destruct (validate_key_world env w api_key scope) as [-> | ->]; exact Hw.
    + destruct (Hcheck api_key eq_refl) as [ki Hk].
      destruct (check_rate_limit_frame w api_key ki Hk) as [_ [Hframe [Hkeys _]]].
      apply (Hgrow w); [exact Hw | |].
      * intros h. unfold record_of. rewrite Hkeys. tauto.
      * intros h Hh. destruct (decide (h = _hash_key env api_key)) as [-> | Hne].
        -- right. unfold record_of. rewrite Hkeys. eauto.
        -- left. rewrite <- (Hframe h Hne). exact Hh.
    + destruct (record_of w (_hash_key env api_key)) as [ki |] eqn:Hk.
      * rewrite (revoke_key_known env w api_key ki Hk). cbn [snd].
        intros h. unfold tracker_of, record_of, revoked. run_monad.
        rewrite !lookup_delete. case_decide; [intros [? [=]] |]. apply Hw.
      * rewrite (revoke_key_unknown env w api_key Hk). exact Hw.
  - unfold APIKeyManager__init__. unfold bind at 1. unfold modify at 1.
    apply Hload. intros h [tr Htr]. unfold tracker_of, with_manager in Htr.
    cbn in Htr. rewrite lookup_empty in Htr. discriminate.
Qed.

End Orphans.

Lemma trackers_keep_records_witness :
  trackers_have_records (perform_op demo_env (op_check_rate_limit "sk-0") limited).
Proof.
  destruct (trackers_keep_records demo_env (op_check_rate_limit "sk-0") limited start)
    as [Hstep _].
  apply Hstep.
  - intros h [tr Htr]. vm_compute in Htr. discriminate Htr.
  - intros api_key [= <-]. exists limited_record. vm_compute. reflexivity.
Defined.

(** * Further properties of the gate *)

Section GateRuns.

Variable env : Env.
Variable downstream : Request -> M Response.

(** A successful validation was made for a non-empty credential that has a
    record, read the clock once and left the manager alone. *)
Lemma validate_key_success (w w1 : World) api_key scope m :
  validate_key env api_key scope w = (Return (true, m), w1) ->
  exists k ki, api_key = Some k /\ k <> "" /\
    record_of w (_hash_key env k) = Some ki /\ w1 = ticked w /\ m = None.
Proof.
  unfold validate_key. destruct api_key as [k |]; [| discriminate].
  destruct (truthy (Some k)) eqn:Hk; cbn [negb]; [| discriminate].
  apply truthy_Some in Hk. run_monad.
  destruct (_api_keys (api_key_manager w) !! _hash_key env k) as [ki |] eqn:Hrec;
    [| discriminate].
  run_monad. destruct (expires_at ki <? _); [discriminate |].
  assert (Hdone : (Return (true, @None string), ticked w) = (Return (true, m), w1) ->
            exists k0 ki0, Some k = Some k0 /\ k0 <> "" /\
              record_of w (_hash_key env k0) = Some ki0 /\ w1 = ticked w /\ m = None).
  { intros [= <- <-]. exists k, ki. repeat split; assumption || reflexivity. }
  destruct scope as [s |]; [| exact Hdone].
  destruct (_ && _); [discriminate | exact Hdone].
Qed.

(** A failed validation without a scope names one of three reasons and
    leaves the manager and the dicts alone. *)
Lemma validate_key_failure (w w1 : World) api_key m :
  validate_key env api_key None w = (Return (false, m), w1) ->
  (m = Some MissingCredential \/ m = Some UnknownCredential \/ m = Some Expired) /\
  api_key_manager w1 = api_key_manager w /\ objects w1 = objects w.
Proof.
  unfold validate_key. destruct api_key as [k |]; [| intros [= <- <-]; auto].
  destruct (negb (truthy (Some k))); [intros [= <- <-]; auto |]. run_monad.
  destruct (_ !! _) as [ki |]; [| intros [= <- <-]; auto]. run_monad.
  destruct (expires_at ki <? _); [intros [= <- <-]; auto | discriminate].
Qed.

Lemma validate_key_returns (w : World) api_key scope :
  exists r w1, validate_key env api_key scope w = (Return r, w1).
Proof.
  unfold validate_key. destruct api_key as [k |]; [| eauto].
  destruct (negb (truthy (Some k))); [eauto |]. run_monad.
  destruct (_ !! _) as [ki |]; [| eauto]. run_monad.
  destruct (expires_at ki <? _); [eauto |].
  destruct scope as [s |]; [| eauto]. destruct (_ && _); eauto.
Qed.

(** One request outside the allow-list, step by step. *)
Lemma dispatch_run (self : APIKeyMiddleware) (request : Request) (w : World) :
  excluded self request = false ->
  run env downstream (dispatch self request) w =
    let key := headers request !! header_name self in
    match validate_key env key None (ticked w) with
    | (Return (true, _), w1) =>
        match perform env downstream (call_check_rate_limit key) w1 with
        | (Return (true, _), w2) =>
            match downstream request w2 with
            | (Return response, w3) =>
                (Return response, ticked w3,
                 [validate_called key None; check_rate_limit_called key;
                  handler_called request])
            | (Raise e, w3) =>
                (Raise e, w3,
                 [validate_called key None; check_rate_limit_called key;
                  handler_called request])
            end
        | (Return (false, m), w2) =>
            (Return (JSONResponse 429 (rejection m)), w2,
             [validate_called key None; check_rate_limit_called key])
        | (Raise e, w2) =>
            (Raise e, w2, [validate_called key None; check_rate_limit_called key])
        end
    | (Return (false, m), w1) =>
        (Return (JSONResponse 401 (rejection m)), w1, [validate_called key None])
    | (Raise e, w1) => (Raise e, w1, [validate_called key None])
    end.
Proof.
  intros Hout. unfold dispatch. rewrite Hout. cbv zeta.
  set (key := headers request !! header_name self).
  cbn [run observe].
  change (perform env downstream call_time w)
    with (Return (clock env (time_reads w)), ticked w).
  cbn [run observe].
  change (perform env downstream (call_validate_key key None))
    with (validate_key env key None).
  destruct (validate_key env key None (ticked w)) as [[[valid m] | e] w1];
    [| reflexivity].
  destruct valid; cbn [negb run observe]; [| reflexivity].
  destruct (perform env downstream (call_check_rate_limit key) w1)
    as [[[allowed m'] | e] w2]; [| reflexivity].
  destruct allowed; cbn [negb run observe]; [| reflexivity].
  change (perform env downstream (call_next request)) with (downstream request).
  destruct (downstream request w2) as [[response | e] w3]; reflexivity.
Qed.

(** The rate check that follows a successful validation finds the record. *)
Lemma gated_check_rate_limit (w w1 : World) key m :
  validate_key env key None (ticked w) = (Return (true, m), w1) ->
  exists k ki, key = Some k /\ record_of w1 (_hash_key env k) = Some ki /\
    api_key_manager w1 = api_key_manager w /\ objects w1 = objects w /\
    perform env downstream (call_check_rate_limit key) w1 =
      check_rate_limit env k w1.
Proof.
  intros Hval.
  destruct (validate_key_success _ _ _ _ _ Hval) as [k [ki [-> [_ [Hk [-> _]]]]]].
  exists k, ki. repeat split; try reflexivity. exact Hk.
Qed.

(** X8.  The gate raises nothing of its own.  When the handling of a
    request ends with an exception, the handler was called and the
    exception is the one the handler raised; in particular the look-up of
    the record in [check_rate_limit] never fails behind the gate.  So when
    the handler always returns, every request gets a response. *)
Theorem dispatch_raises_only_from_handler (self : APIKeyMiddleware)
    (request : Request) (w : World) :
  (forall e w' evs,
     run env downstream (dispatch self request) w = (Raise e, w', evs) ->
     handler_called request ∈ evs /\
     exists w2, downstream request w2 = (Raise e, w')) /\
  ((forall v, exists response v', downstream request v = (Return response, v')) ->
   exists response w' evs,
     run env downstream (dispatch self request) w = (Return response, w', evs)).
Proof.
  destruct (excluded self request) eqn:Hexcl.
  - assert (Hrun : run env downstream (dispatch self request) w =
                   (fst (downstream request w), snd (downstream request w),
                    [handler_called request])).
    { unfold dispatch. rewrite Hexcl. cbn [run perform observe].
      destruct (downstream request w) as [[response | e] w']; reflexivity. }
    rewrite Hrun. split.
    + intros e w' evs [= He Hw <-]. split; [set_solver |].
      exists w. destruct (downstream request w) as [o v]. cbn in He, Hw.
      subst. reflexivity.
    + intros Hret. destruct (Hret w) as [response [v' Hdown]]. rewrite Hdown.
      do 3 eexists. reflexivity.
  - rewrite (dispatch_run self request w Hexcl). cbv zeta.
    destruct (validate_key_returns (ticked w) (headers request !! header_name self)
                None) as [[valid m] [w1 Hval]].
    rewrite Hval. destruct valid.
    + destruct (gated_check_rate_limit _ _ _ _ Hval)
        as [k [ki [Hkey [Hk [_ [_ Hperform]]]]]].
      rewrite Hperform.
      destruct (check_rate_limit_frame env w1 k ki Hk) as [_ [_ [_ Hret]]].
      destruct (check_rate_limit env k w1) as [o w2]. cbn [fst] in Hret.
      destruct Hret as [-> | ->].
      * split.
        -- intros e w' evs Hrun.
           destruct (downstream request w2) as [[response | e'] w3] eqn:Hdown;
             [discriminate |].
           injection Hrun as <- <- <-. split; [set_solver | eauto].
        -- intros Hret. destruct (Hret w2) as [response [v' Hdown]]. rewrite Hdown.
           do 3 eexists. reflexivity.
      * split; [discriminate | intros _; do 3 eexists; reflexivity].
    + split; [discriminate | intros _; do 3 eexists; reflexivity].
Qed.

(** X9.  The answers the gate gives by itself.  When a request gets a
    response without the handler having been called, the response is either
    401 with one of the three messages ["API key is required"],
    ["Invalid API key"], ["API key has expired"], the manager and the dicts
    being as before the request, or 429 with ["API rate limit exceeded"],
    the records being as before the request.  No other text, and nothing of
    the credential, reaches the body. *)
Theorem dispatch_own_answers (self : APIKeyMiddleware) (request : Request)
    (w w' : World) (response : Response) (evs : list event) :
  run env downstream (dispatch self request) w = (Return response, w', evs) ->
  handler_called request ∉ evs ->
  (exists m, response = JSONResponse 401 (rejection (Some m)) /\
     (m = MissingCredential \/ m = UnknownCredential \/ m = Expired) /\
     api_key_manager w' = api_key_manager w /\ objects w' = objects w) \/
  (response = JSONResponse 429 (rejection (Some RateLimitExceeded)) /\
   _api_keys (api_key_manager w') = _api_keys (api_key_manager w)).
Proof.
  destruct (excluded self request) eqn:Hexcl.
  - unfold dispatch. rewrite Hexcl. cbn [run perform observe].
    destruct (downstream request w) as [[r | e] v]; [| discriminate].
    intros [= <- <- <-] Hnot. exfalso. apply Hnot. set_solver.
  - rewrite (dispatch_run self request w Hexcl). cbv zeta.
    destruct (validate_key env (headers request !! header_name self) None (ticked w))
      as [[[valid m] | e] w1] eqn:Hval; [| discriminate].
    destruct valid.
    + destruct (gated_check_rate_limit _ _ _ _ Hval)
        as [k [ki [Hkey [Hk [Hmgr [_ Hperform]]]]]].
      rewrite Hperform.
      destruct (check_rate_limit_frame env w1 k ki Hk) as [_ [_ [Hkeys Hret]]].
      destruct (check_rate_limit env k w1) as [o w2]. cbn [fst snd] in Hret, Hkeys.
      destruct Hret as [-> | ->].
      * destruct (downstream request w2) as [[r | e] w3]; [| discriminate].
        intros [= <- <- <-] Hnot. exfalso. apply Hnot. set_solver.
      * intros [= <- <- <-] _. right. split; [reflexivity |].
        rewrite Hkeys, Hmgr. reflexivity.
    + intros [= <- <- <-] _. left.
      destruct (validate_key_failure _ _ _ _ Hval) as [Hm [Hmgr Hobj]].
      destruct Hm as [-> | [-> | ->]]; eexists; (split; [reflexivity |]);
        (split; [| split; [exact Hmgr | exact Hobj]]); auto.
Qed.

(** X10.  Behind the gate no tracker is left without a record: if every
    tracker belongs to a stored record before a request and the handler
    keeps it so, then it is so after the request, whatever the request
    carries as a credential. *)
Theorem dispatch_keeps_trackers (self : APIKeyMiddleware) (request : Request)
    (w : World) :
  (forall v, trackers_have_records v ->
     trackers_have_records (snd (downstream request v))) ->
  trackers_have_records w ->
  trackers_have_records (snd (fst (run env downstream (dispatch self request) w))).
Proof.
  intros Hdown Hw.
  assert (Hsame : forall v v' : World, api_key_manager v' = api_key_manager v ->
            trackers_have_records v -> trackers_have_records v').
  { intros v v' Hmgr Hv h. unfold tracker_of, record_of. rewrite Hmgr. apply Hv. }
  destruct (excluded self request) eqn:Hexcl.
  - unfold dispatch. rewrite Hexcl. cbn [run perform observe].
    specialize (Hdown w Hw).
    destruct (downstream request w) as [[r | e] v]; exact Hdown.
  - rewrite (dispatch_run self request w Hexcl). cbv zeta.
    destruct (validate_key env (headers request !! header_name self) None (ticked w))
      as [[[valid m] | e] w1] eqn:Hval.
    + assert (Hw1 : trackers_have_records w1).
      { destruct (validate_key_world env (ticked w)
                    (headers request !! header_name self) None) as [Hv | Hv];
          rewrite Hval in Hv; cbn [snd] in Hv; subst w1; exact Hw. }
      destruct valid; [| exact Hw1].
      destruct (gated_check_rate_limit _ _ _ _ Hval)
        as [k [ki [Hkey [Hk [_ [_ Hperform]]]]]].
      rewrite Hperform.
      destruct (check_rate_limit_frame env w1 k ki Hk) as [_ [Hframe [Hkeys Hret]]].
      assert (Hw2 : trackers_have_records (snd (check_rate_limit env k w1))).
      { intros h Hh. unfold record_of. rewrite Hkeys.
        destruct (decide (h = _hash_key env k)) as [-> | Hne]; [eauto |].
        apply Hw1. rewrite <- (Hframe h Hne). exact Hh. }
      destruct (check_rate_limit env k w1) as [o w2]. cbn [fst snd] in *.
      destruct Hret as [-> | ->]; [| exact Hw2].
      specialize (Hdown w2 Hw2).
      destruct (downstream request w2) as [[r | e] w3]; cbn [fst snd] in *.
      * apply (Hsame w3); [reflexivity | exact Hdown].
      * exact Hdown.
    + destruct (validate_key_returns (ticked w)
                  (headers request !! header_name self) None) as [r [v Hv]].
      rewrite Hv in Hval. discriminate.
Qed.

End GateRuns.

Lemma dispatch_raises_only_from_handler_witness :
  exists response w' evs,
    run demo_env echo (dispatch gate keyed_request) limited =
      (Return response, w', evs).
Proof.
  destruct (dispatch_raises_only_from_handler demo_env echo gate keyed_request limited)
    as [_ Hreturns].
  apply Hreturns. intros v. exists (StreamingResponse 200 ["/api/jobs"]), v.
  reflexivity.
Defined.

Lemma dispatch_own_answers_witness :
  (exists m, JSONResponse 401 (rejection (Some MissingCredential)) =
               JSONResponse 401 (rejection (Some m)) /\
     (m = MissingCredential \/ m = UnknownCredential \/ m = Expired) /\
     api_key_manager (ticked limited) = api_key_manager limited /\
     objects (ticked limited) = objects limited) \/
  (JSONResponse 401 (rejection (Some MissingCredential)) =
     JSONResponse 429 (rejection (Some RateLimitExceeded)) /\
   _api_keys (api_key_manager (ticked limited)) = _api_keys (api_key_manager limited)).
Proof.
  apply (dispatch_own_answers demo_env echo gate anonymous_request limited
           (ticked limited) (JSONResponse 401 (rejection (Some MissingCredential)))
           [validate_called None None]).
  - vm_compute. reflexivity.
  - intros Hin. apply list_elem_of_In in Hin. destruct Hin as [Heq | []].
    discriminate Heq.
Defined.

Lemma dispatch_keeps_trackers_witness :
  trackers_have_records
    (snd (fst (run demo_env echo (dispatch gate keyed_request) limited))).
Proof.
  apply dispatch_keeps_trackers.
  - intros v Hv. exact Hv.
  - intros h [tr Htr]. vm_compute in Htr. discriminate Htr.
Defined.

Section Construction.

(** X13.  The allow-list of a gate is never empty.  The constructor keeps a
    non-empty list of prefixes as given and replaces both [None] and the
    empty list by the four default prefixes, so that passing [[]] does not
    close the documentation and health paths; the header name is kept as
    given.  A list that contains the empty string lets every request
    through unchecked. *)
Theorem middleware_allow_list (given : option (list string)) (name : string) :
  let self := APIKeyMiddleware__init__ given name in
  exclude_paths self <> [] /\
  header_name self = name /\
  (given = None \/ given = Some [] ->
     exclude_paths self = ["/docs"; "/redoc"; "/openapi.json"; "/health"]) /\
  (forall paths, given = Some paths -> paths <> [] -> exclude_paths self = paths) /\
  (forall request, "" ∈ exclude_paths self -> excluded self request = true).
Proof.
  intros self. subst self. unfold APIKeyMiddleware__init__.
  split; [| split; [reflexivity | split; [| split]]].
  - destruct given as [[| p ps] |]; discriminate.
  - intros [-> | ->]; reflexivity.
  - intros paths -> Hne. destruct paths as [| p ps]; [congruence | reflexivity].
  - intros request Hin. unfold excluded. apply existsb_exists. exists "".
    split; [apply list_elem_of_In; exact Hin |].
    apply prefix_spec. exists (url_path request). reflexivity.
Qed.

End Construction.

Lemma middleware_allow_list_witness :
  exclude_paths (APIKeyMiddleware__init__ (Some []) "X-API-Key") =
    ["/docs"; "/redoc"; "/openapi.json"; "/health"] /\
  exclude_paths (APIKeyMiddleware__init__ (Some ["/public"]) "X-API-Key") =
    ["/public"] /\
  excluded (APIKeyMiddleware__init__ (Some [""]) "X-API-Key") anonymous_request = true.
Proof.
  destruct (middleware_allow_list (Some []) "X-API-Key") as [_ [_ [Hdefault _]]].
  destruct (middleware_allow_list (Some ["/public"]) "X-API-Key")
    as [_ [_ [_ [Hkept _]]]].
  destruct (middleware_allow_list (Some [""]) "X-API-Key")
    as [_ [_ [_ [_ Hopen]]]].
  split; [| split].
  - apply Hdefault. right. reflexivity.
  - apply (Hkept ["/public"]); [reflexivity | discriminate].
  - apply Hopen. apply list_elem_of_In. left. reflexivity.
Defined.

(** * Properties of the introspection *)

Section Reports.

Variable env : Env.
Variable isoformat : Z -> string.



End Reports.


